(** * IMAP connection runtime: notification flush, listener callback, close path

    A shallow embedding of [imap-core/lib/imap-connection.js] (class
    [IMAPConnection]) and the properties of its notification multiplexer,
    command gate and shutdown path.

    Conventions of the embedding.
    - JavaScript numbers that hold UIDs, MODSEQ values and sequence numbers are
      integers; they are modelled as [Z].  [String(n)] is the decimal rendering.
    - A JavaScript [Set] of UIDs is a [gset Z]; [server.connections] is a
      [gset nat] of connection handles (object identities).
    - Every method is a function from the connection record to the new record
      and the list of effects it performed, in program order: writes to the
      composer stream, writes to the socket, logger calls, calls into the
      notifier and into the command assembler. *)

From Stdlib Require Import ZArith Ascii String DecimalString.
From stdpp Require Import gmap strings list.

Local Open Scope string_scope.
Local Open Scope list_scope.
Local Open Scope Z_scope.
Set Warnings "-register-all,-clear-no-such-hyp".

(** ** Data model *)

(** An update record delivered by the notifier ([getUpdates]).  [flags] and
    [ignore] are optional properties ([None] is [undefined]). *)
Record update := {
  command : string;
  uid : Z;
  modseq : Z;
  flags : option (list string);
  ignore : option string
}.

(** Attribute tree of a response record: an object [{type, value}] or a
    nested array. *)
Inductive attr :=
| Node (type value : string)
| Arr (items : list attr).

(** Response record handed to the composer: [{tag, command, attributes}]. *)
Record response := {
  tag : string;
  rcommand : string;
  attributes : list attr
}.

(** The [data] argument of [formatResponse] as [emitNotifications] builds it:
    [{flags: update.flags, modseq: (condstoreEnabled && update.modseq) || false}].
    [d_modseq = 0] stands for both falsy values [0] and [false]. *)
Record ndata := {
  d_flags : option (list string);
  d_modseq : Z
}.

(** [this.selected]: the selected mailbox snapshot. *)
Record selected_t := {
  mailbox : string;
  uidList : list Z;
  modifyIndex : Z;
  condstoreEnabled : bool;
  notifications : list update
}.

(** The part of the socket the connection reads. *)
Record socket_t := {
  destroyed : bool;
  writable : bool
}.

(** A frame handed over by the stream parser ([command.final]). *)
Record frame := {
  final : bool;
  value : string
}.

(** A listener record created by [updateNotificationListener], together with
    the closure variable [cleared] captured by its [clear] and [callback].
    After [clear] ran, the closure variable [listenerData] is [false]; that is
    the case exactly when [cleared] is [true]. *)
Record listener := {
  l_mailbox : string;
  lock : bool;
  cleared : bool
}.

(** The message passed to the listener callback by the notifier. *)
Record message := {
  action : string;
  m_mailbox : string
}.

(** The part of [this._server] the connection uses. *)
Record server_t := {
  connections : gset nat;
  has_onNotifications : bool
}.

(** Effects, in program order.  [EvThrow] is a [TypeError] thrown by the
    method: it is the last effect of the call, the statements after it are not
    executed, and the exception propagates to the caller. *)
Inductive event :=
| EvLog (level tnx fmt : string)
| EvWrite (o : option response)
| EvSend (payload : string)
| EvDeflateFlush
| EvSocketEnd
| EvOnNotifications (mbox : string) (modify_index : Z)
| EvAddListener (mbox : string)
| EvRemoveListener (mbox : option string)
| EvGetUpdates (lid : nat) (mbox : option string) (since : Z)
| EvNewCommand
| EvAppend (f : frame)
| EvEnd (f : frame)
| EvCallback
| EvDone
| EvEmitError
| EvThrow.

(** The connection object.  [self] is the identity under which the object
    sits in [server.connections]; [listeners] is the store of the listener
    records created so far, [_listenerData] points into it. *)
Record connection := {
  self : nat;
  id : string;
  compression : bool;
  _deflate : bool;
  _inflate : bool;
  _dataStream : bool;
  _server : server_t;
  _socket : socket_t;
  _parser : bool;
  _upgrading : bool;
  _currentCommand : bool;
  state : string;
  listeners : list listener;
  _listenerData : option nat;
  selected : option selected_t;
  idling : bool;
  _closing : bool;
  _closed : bool
}.

(** ** Helpers for JavaScript primitives *)

(** [String(n)] for an integer [n]. *)
Definition String_of (n : Z) : string := NilZero.string_of_int (Z.to_int n).

Definition upper_ascii (a : ascii) : ascii :=
  let n := nat_of_ascii a in
  if (Nat.leb 97 n && Nat.leb n 122)%bool then ascii_of_nat (n - 32) else a.

(** [s.toUpperCase()] on ASCII strings. *)
Fixpoint toUpperCase (s : string) : string :=
  match s with
  | EmptyString => EmptyString
  | String a s' => String (upper_ascii a) (toUpperCase s')
  end.

(** [l.indexOf(uid)]: first index holding [uid], [-1] when there is none. *)
Fixpoint indexOf (l : list Z) (u : Z) : Z :=
  match l with
  | [] => -1
  | x :: l' =>
      if Z.eqb x u then 0
      else let r := indexOf l' u in if r <? 0 then -1 else r + 1
  end.

(** [l.splice(i, 1)] for [0 <= i]. *)
Definition splice1 (i : Z) (l : list Z) : list Z := delete (Z.to_nat i) l.

(** [update.ignore === this.id] *)
Definition ignored (sid : string) (x : update) : bool :=
  match ignore x with
  | Some s => String.eqb s sid
  | None => false
  end.

(** ** formatResponse *)

(** The "notification response" branch of [formatResponse] (no [query] key):
    for each key of [data] with a truthy value, the upper-cased key and the
    converted value are pushed into [attributes[1]]. *)
Definition data_attributes (d : ndata) : list attr :=
  match d_flags d with
  | Some fl => [Node "ATOM" "FLAGS"; Arr (map (fun f => Node "ATOM" f) fl)]
  | None => []
  end ++
  (if d_modseq d =? 0 then []
   else [Node "ATOM" "MODSEQ"; Arr [Node "ATOM" (String_of (d_modseq d))]]).

Definition mk_response (seq : Z) (cmd : string) (data : option ndata) : response :=
  {| tag := "*";
     rcommand := String_of seq;
     attributes :=
       Node "atom" cmd ::
       match data with
       | Some d => [Arr (data_attributes d)]
       | None => []
       end |}.

Definition set_uidList (l : list Z) (s : selected_t) : selected_t :=
  {| mailbox := mailbox s; uidList := l; modifyIndex := modifyIndex s;
     condstoreEnabled := condstoreEnabled s; notifications := notifications s |}.

Definition set_modifyIndex (m : Z) (s : selected_t) : selected_t :=
  {| mailbox := mailbox s; uidList := uidList s; modifyIndex := m;
     condstoreEnabled := condstoreEnabled s; notifications := notifications s |}.

Definition set_notifications (q : list update) (s : selected_t) : selected_t :=
  {| mailbox := mailbox s; uidList := uidList s; modifyIndex := modifyIndex s;
     condstoreEnabled := condstoreEnabled s; notifications := q |}.

(** [formatResponse(command, uid, data)] acting on [this.selected].  The
    result is [None] when the method returns [false]. *)
Definition formatResponse (cmd : string) (u : Z) (data : option ndata)
    (s : selected_t) : option response * selected_t :=
  let cmd := toUpperCase cmd in
  if String.eqb cmd "EXISTS" then
    let s1 := set_uidList (uidList s ++ [u]) s in
    (Some (mk_response (Z.of_nat (length (uidList s1))) cmd data), s1)
  else
    let seq := indexOf (uidList s) u in
    if seq <? 0 then (None, s)
    else
      let seq := seq + 1 in
      let s1 := if String.eqb cmd "EXPUNGE"
                then set_uidList (splice1 (seq - 1) (uidList s)) s else s in
      (Some (mk_response seq cmd data), s1).

(** ** emitNotifications *)

(** First loop: the UIDs of the EXISTS and of the EXPUNGE records. *)
Definition collect_step (acc : gset Z * gset Z) (x : update) : gset Z * gset Z :=
  if String.eqb (command x) "EXISTS" then ({[uid x]} ∪ acc.1, acc.2)
  else if String.eqb (command x) "EXPUNGE" then (acc.1, {[uid x]} ∪ acc.2)
  else acc.

Definition collect (q : list update) : gset Z * gset Z :=
  foldl collect_step (∅, ∅) q.

(** [removed.forEach(uid => { if (added.has(uid)) skip.add(uid) })] *)
Definition skip_set (added removed : gset Z) : gset Z :=
  filter (fun u => u ∈ added) removed.

(** Second loop, from the last index down to 0: a FETCH record is spliced out
    when a FETCH for its UID was already seen (further right) or when the UID
    is in [added] or [removed].  The result is the set [fetches] and the queue
    after the splices. *)
Fixpoint filter_fetches (added removed : gset Z) (q : list update)
    : gset Z * list update :=
  match q with
  | [] => (∅, [])
  | x :: q' =>
      let '(fetches, r) := filter_fetches added removed q' in
      if String.eqb (command x) "FETCH" then
        if bool_decide (uid x ∈ fetches) || bool_decide (uid x ∈ added)
           || bool_decide (uid x ∈ removed)
        then (fetches, r)
        else ({[uid x]} ∪ fetches, x :: r)
      else (fetches, x :: r)
  end.

(** [if (m > this.selected.modifyIndex) this.selected.modifyIndex = m], the
    statement shared by the notifier callback and the third loop. *)
Definition advance (m : Z) (s : selected_t) : selected_t :=
  if m >? modifyIndex s then set_modifyIndex m s else s.

(** Local variables of the third loop together with [this.selected]. *)
Record wstate := {
  w_sel : selected_t;
  changed : bool;
  existsResponse : option response
}.

(** Body of the third loop for one record of the queue. *)
Definition walk_body (sid : string) (skip : gset Z) (st : wstate) (x : update)
    : wstate * list event :=
  if bool_decide (uid x ∈ skip) then (st, [])
  else
    let s := w_sel st in
    let s := advance (modseq x) s in
    let log1 := EvLog "info" "notifications" "[%s] Processing notification: %s" in
    if ignored sid x then
      ({| w_sel := s; changed := changed st; existsResponse := existsResponse st |},
       [log1])
    else
      let log2 := EvLog "info" "notifications" "[%s] UIDS: %s" in
      if String.eqb (command x) "EXISTS" then
        let '(r, s') := formatResponse "EXISTS" (uid x) None s in
        ({| w_sel := s'; changed := false; existsResponse := r |}, [log1; log2])
      else if String.eqb (command x) "EXPUNGE" then
        let seq := indexOf (uidList s) (uid x) in
        let log3 := EvLog "info" "expunge" "[%s] EXPUNGE %s" in
        if seq >=? 0 then
          let '(output, s') := formatResponse "EXPUNGE" (uid x) None s in
          ({| w_sel := s'; changed := true; existsResponse := existsResponse st |},
           [log1; log2; log3; EvWrite output])
        else
          ({| w_sel := s; changed := changed st; existsResponse := existsResponse st |},
           [log1; log2; log3])
      else if String.eqb (command x) "FETCH" then
        let d := {| d_flags := flags x;
                    d_modseq := if condstoreEnabled s then modseq x else 0 |} in
        let '(r, s') := formatResponse "FETCH" (uid x) (Some d) s in
        ({| w_sel := s'; changed := changed st; existsResponse := existsResponse st |},
         [log1; log2; EvWrite r])
      else
        ({| w_sel := s; changed := changed st; existsResponse := existsResponse st |},
         [log1; log2]).

(** The third loop. *)
Fixpoint walk (sid : string) (skip : gset Z) (st : wstate) (q : list update)
    : wstate * list event :=
  match q with
  | [] => (st, [])
  | x :: q' =>
      let '(st1, e1) := walk_body sid skip st x in
      let '(st2, e2) := walk sid skip st1 q' in
      (st2, e1 ++ e2)
  end.

Definition set_selected (s : option selected_t) (c : connection) : connection :=
  {| self := self c; id := id c; compression := compression c;
     _deflate := _deflate c; _inflate := _inflate c; _dataStream := _dataStream c;
     _server := _server c; _socket := _socket c; _parser := _parser c;
     _upgrading := _upgrading c; _currentCommand := _currentCommand c;
     state := state c; listeners := listeners c; _listenerData := _listenerData c;
     selected := s; idling := idling c; _closing := _closing c;
     _closed := _closed c |}.

(** What happens after the third loop: the cached or the synthesized EXISTS. *)
Definition exists_tail (st : wstate) : list event :=
  (match existsResponse st with
   | Some r => if changed st then [] else [EvWrite (Some r)]
   | None => []
   end) ++
  (if changed st
   then [EvWrite (Some {| tag := "*";
                          rcommand := String_of (Z.of_nat (length (uidList (w_sel st))));
                          attributes := [Node "atom" "EXISTS"] |})]
   else []).

(** The body of [emitNotifications] once the guard has passed. *)
Definition flush (sid : string) (notify : bool) (sel : selected_t)
    : selected_t * list event :=
  let log0 := EvLog "info" "notifications" "[%s] Pending notifications: %s" in
  let '(added, removed) := collect (notifications sel) in
  let skip := skip_set added removed in
  let q := (filter_fetches added removed (notifications sel)).2 in
  let st0 := {| w_sel := set_notifications q sel; changed := false;
                existsResponse := None |} in
  let '(st, ev) := walk sid skip st0 q in
  let sel' := set_notifications [] (w_sel st) in
  (sel',
   log0 :: ev ++ exists_tail st ++
   (if notify then [EvOnNotifications (mailbox sel') (modifyIndex sel')] else [])).

Definition emitNotifications (c : connection) : connection * list event :=
  if negb (String.eqb (state c) "Selected") then (c, [])
  else
    match selected c with
    | None => (c, [])
    | Some sel =>
        match notifications sel with
        | [] => (c, [])
        | _ :: _ =>
            let '(sel', ev) := flush (id c) (has_onNotifications (_server c)) sel in
            (set_selected (Some sel') c, ev)
        end
    end.

(** ** Socket and registry *)

(** [socket.end()] closes the writable side of a Node [net.Socket]: from then
    on [socket.writable] is [false]. *)
Definition socket_end (s : socket_t) : socket_t :=
  {| destroyed := destroyed s; writable := false |}.

Definition set_socket (s : socket_t) (c : connection) : connection :=
  {| self := self c; id := id c; compression := compression c;
     _deflate := _deflate c; _inflate := _inflate c; _dataStream := _dataStream c;
     _server := _server c; _socket := s; _parser := _parser c;
     _upgrading := _upgrading c; _currentCommand := _currentCommand c;
     state := state c; listeners := listeners c; _listenerData := _listenerData c;
     selected := selected c; idling := idling c; _closing := _closing c;
     _closed := _closed c |}.

(** [this._server.connections.delete(this)] *)
Definition unregister (c : connection) : connection :=
  {| self := self c; id := id c; compression := compression c;
     _deflate := _deflate c; _inflate := _inflate c; _dataStream := _dataStream c;
     _server := {| connections := connections (_server c) ∖ {[self c]};
                   has_onNotifications := has_onNotifications (_server c) |};
     _socket := _socket c; _parser := _parser c;
     _upgrading := _upgrading c; _currentCommand := _currentCommand c;
     state := state c; listeners := listeners c; _listenerData := _listenerData c;
     selected := selected c; idling := idling c; _closing := _closing c;
     _closed := _closed c |}.

Definition set_closing (b : bool) (c : connection) : connection :=
  {| self := self c; id := id c; compression := compression c;
     _deflate := _deflate c; _inflate := _inflate c; _dataStream := _dataStream c;
     _server := _server c; _socket := _socket c; _parser := _parser c;
     _upgrading := _upgrading c; _currentCommand := _currentCommand c;
     state := state c; listeners := listeners c; _listenerData := _listenerData c;
     selected := selected c; idling := idling c; _closing := b;
     _closed := _closed c |}.

Definition set_currentCommand (b : bool) (c : connection) : connection :=
  {| self := self c; id := id c; compression := compression c;
     _deflate := _deflate c; _inflate := _inflate c; _dataStream := _dataStream c;
     _server := _server c; _socket := _socket c; _parser := _parser c;
     _upgrading := _upgrading c; _currentCommand := b;
     state := state c; listeners := listeners c; _listenerData := _listenerData c;
     selected := selected c; idling := idling c; _closing := _closing c;
     _closed := _closed c |}.

Definition set_listeners (ls : list listener) (ld : option nat) (c : connection)
    : connection :=
  {| self := self c; id := id c; compression := compression c;
     _deflate := _deflate c; _inflate := _inflate c; _dataStream := _dataStream c;
     _server := _server c; _socket := _socket c; _parser := _parser c;
     _upgrading := _upgrading c; _currentCommand := _currentCommand c;
     state := state c; listeners := ls; _listenerData := ld;
     selected := selected c; idling := idling c; _closing := _closing c;
     _closed := _closed c |}.

(** ** send, close *)

(** The call threw. *)
Definition threw (ev : list event) : bool :=
  existsb (fun e => match e with EvThrow => true | _ => false end) ev.

(** [send(payload)].  With [compression] set the payload goes to
    [this._deflate]; when that is [false] or [null] (as [_onClose] leaves it)
    the call [this._deflate.write(...)] throws. *)
Definition send (payload : string) (c : connection) : connection * list event :=
  if writable (_socket c) then
    if compression c then
      if _deflate c
      then (c, [EvSend payload; EvDeflateFlush; EvLog "debug" "send" "[%s] S:"])
      else (c, [EvThrow])
    else (c, [EvSend payload; EvLog "debug" "send" "[%s] S:"])
  else (c, []).

(** [close()] *)
Definition close (c : connection) : connection * list event :=
  let '(c1, ev) :=
    if negb (destroyed (_socket c)) && writable (_socket c)
    then (set_socket (socket_end (_socket c)) c, [EvSocketEnd])
    else (c, []) in
  (set_closing true (unregister c1), ev).

(** ** Listener records *)

(** [listenerData.clear()] of the listener record [lid]. *)
Definition clear (lid : nat) (c : connection) : connection * list event :=
  match listeners c !! lid with
  | None => (c, [])
  | Some L =>
      let ld := if cleared L then _listenerData c
                else if bool_decide (_listenerData c = Some lid) then None
                     else _listenerData c in
      (set_listeners
         (<[lid := {| l_mailbox := l_mailbox L; lock := lock L; cleared := true |}]>
            (listeners c)) ld c,
       [EvRemoveListener (if cleared L then None else Some (l_mailbox L))])
  end.

Definition set_lock (lid : nat) (b : bool) (c : connection) : connection :=
  match listeners c !! lid with
  | None => c
  | Some L =>
      set_listeners
        (<[lid := {| l_mailbox := l_mailbox L; lock := b; cleared := cleared L |}]>
           (listeners c)) (_listenerData c) c
  end.

(** [this._listenerData] as an object, when it is one. *)
Definition listenerData_obj (c : connection) : option (nat * listener) :=
  match _listenerData c with
  | Some lid => match listeners c !! lid with
                | Some L => Some (lid, L)
                | None => None
                end
  | None => None
  end.

(** [updateNotificationListener(done)] *)
Definition updateNotificationListener (c : connection) : connection * list event :=
  let registered :=
    match listenerData_obj c, selected c with
    | Some (_, L), Some sel => String.eqb (l_mailbox L) (mailbox sel)
    | _, _ => false
    end in
  if registered then (c, [EvDone])
  else
    let '(c1, e1) :=
      match listenerData_obj c with
      | Some (lid, _) => clear lid c
      | None => (c, [])
      end in
    match selected c1 with
    | None => (set_listeners (listeners c1) None c1, e1 ++ [EvDone])
    | Some sel =>
        let L := {| l_mailbox := mailbox sel; lock := false; cleared := false |} in
        (set_listeners (listeners c1 ++ [L]) (Some (length (listeners c1))) c1,
         e1 ++ [EvAddListener (mailbox sel); EvDone])
    end.

(** The [callback] closure of the listener record [lid], up to the call of
    [notifier.getUpdates].  [msg] is the notifier's message ([None] when it is
    falsy). *)
Definition callback (lid : nat) (msg : option message) (c : connection)
    : connection * list event :=
  let deleted :=
    match msg, selected c with
    | Some m, Some sel =>
        String.eqb (action m) "DELETE" && String.eqb (m_mailbox m) (mailbox sel)
    | _, _ => false
    end in
  if deleted then
    let '(c1, e1) := send "* BYE Selected mailbox was deleted, have to disconnect" c in
    if threw e1 then (c1, e1)
    else
      let '(c2, e2) := close c1 in
      (c2, e1 ++ e2)
  else
    match listeners c !! lid with
    | None => (c, [])
    | Some L =>
        if negb (cleared L) && lock L then (c, [])
        else if cleared L then (c, [])
        else
          match (if String.eqb (state c) "Selected" then selected c else None) with
          | None => clear lid c
          | Some sel =>
              (set_lock lid true c,
               [EvGetUpdates lid (l_mailbox <$> (snd <$> listenerData_obj c))
                  (modifyIndex sel)])
          end
    end.

(** The continuation passed to [notifier.getUpdates] by the callback of the
    listener record [lid]: [(err, updates) => ...]. *)
Definition getUpdates_cb (lid : nat) (err : option string)
    (updates : option (list update)) (c : connection) : connection * list event :=
  match listeners c !! lid with
  | None => (c, [])
  | Some L =>
      if cleared L then (c, [])
      else
        let c := set_lock lid false c in
        match err with
        | Some _ => (c, [EvLog "info" "updates" "[%s] Notification Error: %s"])
        | None =>
            match (if String.eqb (state c) "Selected" then selected c else None) with
            | None => clear lid c
            | Some sel =>
                match updates with
                | None | Some [] => (c, [])
                | Some (u0 :: us) =>
                    let sel := advance (modseq (List.last us u0)) sel in
                    let sel := set_notifications (notifications sel ++ u0 :: us) sel in
                    let c := set_selected (Some sel) c in
                    if idling c then emitNotifications c else (c, [])
                end
            end
        end
  end.

(** ** Socket events and the command gate *)

(** [_onClose()] *)
Definition _onClose (c : connection) : connection * list event :=
  if _closed c then (c, [])
  else
    let c1 :=
      {| self := self c; id := id c; compression := compression c;
         _deflate := false; _inflate := false; _dataStream := false;
         _server := _server c; _socket := _socket c; _parser := false;
         _upgrading := _upgrading c; _currentCommand := _currentCommand c;
         state := "Closed"; listeners := listeners c;
         _listenerData := _listenerData c;
         selected := selected c; idling := idling c; _closing := _closing c;
         _closed := _closed c |} in
    let '(c2, e2) :=
      match listenerData_obj c1 with
      | Some (lid, _) => clear lid c1
      | None => (c1, [])
      end in
    let c3 := unregister c2 in
    if _closed c3 then (c3, e2)
    else
      ({| self := self c3; id := id c3; compression := compression c3;
          _deflate := _deflate c3; _inflate := _inflate c3;
          _dataStream := _dataStream c3;
          _server := _server c3; _socket := _socket c3; _parser := _parser c3;
          _upgrading := _upgrading c3; _currentCommand := _currentCommand c3;
          state := state c3; listeners := listeners c3;
          _listenerData := _listenerData c3;
          selected := selected c3; idling := idling c3; _closing := false;
          _closed := true |},
       e2 ++ [EvLog "info" "close" "[%s] Connection closed to %s"]).

(** [_onEnd()] *)
Definition _onEnd (c : connection) : connection * list event :=
  let e0 := EvLog "info" "close" "[%s] Connection END" in
  if _closed c then (c, [e0])
  else let '(c1, e1) := _onClose c in (c1, e0 :: e1).

(** [_onError(err)] with [err.processed] and [err.code]. *)
Definition _onError (processed : bool) (code : string) (c : connection)
    : connection * list event :=
  if processed then (c, [])
  else if String.eqb code "ECONNRESET" || String.eqb code "EPIPE" then close c
  else (c, [EvLog "error" "" "[%s] %s"; EvEmitError]).

(** [_onTimeout()] *)
Definition _onTimeout (c : connection) : connection * list event :=
  let e0 := EvLog "info" "connection" "[%s] Connection TIMEOUT" in
  if idling c then (c, [e0])
  else
    let '(c1, e1) := send "* BYE Idle timeout, closing connection" c in
    if threw e1 then (c1, e0 :: e1)
    else
      let '(c2, e2) := close c1 in
      (c2, e0 :: e1 ++ e2).

(** [_onCommand(command, callback)].  [EvNewCommand], [EvAppend] and [EvEnd]
    are the calls into the command assembler ([new IMAPCommand(this)],
    [currentCommand.append], [currentCommand.end]), which parses the command
    and runs its handler; [EvCallback] is the direct call of [callback], the
    "callback to run once the command is processed": it hands the stream
    parser back its turn, so the frame counts as consumed. *)
Definition _onCommand (f : frame) (c : connection) : connection * list event :=
  if _upgrading c then (c, [EvCallback])
  else
    let '(c1, e1) :=
      if _currentCommand c then (c, [])
      else (set_currentCommand true c, [EvNewCommand]) in
    if negb (final f) then (c1, e1 ++ [EvAppend f])
    else (set_currentCommand false c1, e1 ++ [EvEnd f]).

(** [formatResponse] as a method of the connection.  With nothing selected the
    EXISTS branch throws at [this.selected.uidList.push], before any
    assignment, and the other branches return [false]; in both cases the
    connection is as before. *)
Definition formatResponse_conn (cmd : string) (u : Z) (data : option ndata)
    (c : connection) : connection * list event :=
  match selected c with
  | None => (c, if String.eqb (toUpperCase cmd) "EXISTS" then [EvThrow] else [])
  | Some sel => (set_selected (Some (formatResponse cmd u data sel).2) c, [])
  end.

(** The callback of [dns.reverse] in [init()]: the greeting.  [send] is its
    last statement. *)
Definition init_cb (greeting : string) (c : connection) : connection * list event :=
  if _closing c || _closed c then (c, [])
  else
    let '(c1, e1) := send greeting c in
    (c1, EvLog "info" "connect" "[%s] Connection from %s" :: e1).

(** ** Executions *)

(** The entry points of the class that read or write the modelled fields. *)
Inductive op :=
| OpInitCb (greeting : string)
| OpSend (payload : string)
| OpClose
| OpOnEnd
| OpOnClose
| OpOnError (processed : bool) (code : string)
| OpOnTimeout
| OpOnCommand (f : frame)
| OpUpdateNotificationListener
| OpCallback (lid : nat) (msg : option message)
| OpGetUpdatesCb (lid : nat) (err : option string) (updates : option (list update))
| OpEmitNotifications
| OpFormatResponse (cmd : string) (u : Z) (data : option ndata).

Definition run (o : op) (c : connection) : connection * list event :=
  match o with
  | OpInitCb g => init_cb g c
  | OpSend p => send p c
  | OpClose => close c
  | OpOnEnd => _onEnd c
  | OpOnClose => _onClose c
  | OpOnError p code => _onError p code c
  | OpOnTimeout => _onTimeout c
  | OpOnCommand f => _onCommand f c
  | OpUpdateNotificationListener => updateNotificationListener c
  | OpCallback lid msg => callback lid msg c
  | OpGetUpdatesCb lid err updates => getUpdates_cb lid err updates c
  | OpEmitNotifications => emitNotifications c
  | OpFormatResponse cmd u data => formatResponse_conn cmd u data c
  end.

(** A run of the connection: the operations applied one after the other. *)
Fixpoint exec (ops : list op) (c : connection) : connection * list event :=
  match ops with
  | [] => (c, [])
  | o :: ops' =>
      let '(c1, e1) := run o c in
      let '(c2, e2) := exec ops' c1 in
      (c2, e1 ++ e2)
  end.

(** The objects handed to [writeStream.write], in order. *)
Definition written (ev : list event) : list (option response) :=
  omap (fun e => match e with EvWrite o => Some o | _ => None end) ev.

(** The response records among them.  The value [false], which
    [formatResponse] returns for a UID it cannot locate, is not a response
    record. *)
Definition responses (ev : list event) : list response :=
  omap (fun e => match e with EvWrite (Some r) => Some r | _ => None end) ev.

(** ** Concrete connections used in the examples *)

Definition upd (cmd : string) (u m : Z) : update :=
  {| command := cmd; uid := u; modseq := m; flags := None; ignore := None |}.

Definition mk_selected (l : list Z) (q : list update) : selected_t :=
  {| mailbox := "INBOX"; uidList := l; modifyIndex := 0;
     condstoreEnabled := false; notifications := q |}.

Definition mk_conn (sel : option selected_t) : connection :=
  {| self := 1; id := "S"; compression := false; _deflate := false;
     _inflate := false; _dataStream := false;
     _server := {| connections := {[1%nat]}; has_onNotifications := false |};
     _socket := {| destroyed := false; writable := true |};
     _parser := true; _upgrading := false; _currentCommand := false;
     state := "Selected"; listeners := []; _listenerData := None;
     selected := sel; idling := true; _closing := false; _closed := false |}.

Definition untagged (seq : string) (cmd : string) : response :=
  {| tag := "*"; rcommand := seq; attributes := [Node "atom" cmd] |}.


(** ** Notions used in the statements *)

Definition set_upgrading (b : bool) (c : connection) : connection :=
  {| self := self c; id := id c; compression := compression c;
     _deflate := _deflate c; _inflate := _inflate c; _dataStream := _dataStream c;
     _server := _server c; _socket := _socket c; _parser := _parser c;
     _upgrading := b; _currentCommand := _currentCommand c;
     state := state c; listeners := listeners c; _listenerData := _listenerData c;
     selected := selected c; idling := idling c; _closing := _closing c;
     _closed := _closed c |}.

(** The statement "while upgrading, no command is dispatched and no client
    bytes beyond the upgrade command are consumed", for one frame [f]: nothing
    reaches the command assembler, and the frame is not reported to the parser
    as processed. *)
Definition upgrade_gate_claim (f : frame) (c : connection) : Prop :=
  _upgrading c = true ->
  let r := _onCommand f c in
  (forall e, e ∈ r.2 -> e ≠ EvNewCommand /\ forall g, e ≠ EvAppend g /\ e ≠ EvEnd g) /\
  EvCallback ∉ r.2.

(** Number of calls of [socket.end()] among the effects. *)
Definition socket_ends (ev : list event) : nat :=
  length (List.filter (fun e => match e with EvSocketEnd => true | _ => false end) ev).

(** [modifyIndex] of the selected mailbox did not decrease from [c] to [c'],
    and the connection did not gain or lose its selected mailbox. *)
Definition modifyIndex_le (c c' : connection) : Prop :=
  match selected c, selected c' with
  | Some s, Some s' => modifyIndex s <= modifyIndex s'
  | None, None => True
  | _, _ => False
  end.

(** The payloads handed to [send]. *)
Definition sent (ev : list event) : list string :=
  omap (fun e => match e with EvSend p => Some p | _ => None end) ev.

(** The statement "on an error of [getUpdates] the callback logs the error,
    releases the lock and returns, writing nothing and leaving the cursor and
    the queue as they were", for the listener record [lid]. *)
Definition getUpdates_error_claim (lid : nat) (e : string)
    (updates : option (list update)) (c : connection) : Prop :=
  let r := getUpdates_cb lid (Some e) updates c in
  EvLog "info" "updates" "[%s] Notification Error: %s" ∈ r.2 /\
  lock <$> listeners r.1 !! lid = Some false /\
  written r.2 = [] /\ sent r.2 = [] /\
  selected r.1 = selected c.

(** The queue after the second loop of [emitNotifications]. *)
Definition survivors (q : list update) : list update :=
  (filter_fetches (collect q).1 (collect q).2 q).2.

(** The set [skip] of a queue. *)
Definition skip_of (q : list update) : gset Z :=
  skip_set (collect q).1 (collect q).2.

(** The UIDs of the records that are not echo-suppressed for session [sid]. *)
Definition fresh (sid : string) (q : list update) : list Z :=
  map uid (List.filter (fun x => negb (ignored sid x)) q).

(** The statement "a flush whose surviving updates are EXISTS records only
    writes exactly one untagged EXISTS, whose number is the length of
    [uidList] after every EXISTS uid was appended". *)
Definition exists_only_claim (c : connection) : Prop :=
  forall sel,
    state c = "Selected" -> selected c = Some sel -> notifications sel ≠ [] ->
    Forall (fun x => command x = "EXISTS") (survivors (notifications sel)) ->
    let r := emitNotifications c in
    let l := uidList sel ++ map uid (survivors (notifications sel)) in
    responses r.2 = [untagged (String_of (Z.of_nat (length l))) "EXISTS"] /\
    uidList <$> selected r.1 = Some l.

(** The queue without the records of UID [u]. *)
Definition drop_uid (u : Z) (q : list update) : list update :=
  List.filter (fun x => negb (uid x =? u)) q.

(** The state of the third loop with [selected.notifications] replaced by
    [n]. *)
Definition with_queue (n : list update) (st : wstate) : wstate :=
  {| w_sel := set_notifications n (w_sel st); changed := changed st;
     existsResponse := existsResponse st |}.

(** [this.selected.notifications = q] *)
Definition set_queue (q : list update) (c : connection) : connection :=
  set_selected (set_notifications q <$> selected c) c.

Definition is_fetch (x : update) : bool := String.eqb (command x) "FETCH".

Definition is_exists_or_expunge (x : update) : bool :=
  String.eqb (command x) "EXISTS" || String.eqb (command x) "EXPUNGE".

(** Step 2 of the flush algorithm as the specification words it: "keep only
    the last FETCH per UID; drop FETCHes for UIDs in added or removed".  A
    FETCH record of [q] is dropped when a later record of [q] is a FETCH for
    the same UID, or when some record of the whole queue [all] is an EXISTS or
    an EXPUNGE for that UID; every other record is kept, in order. *)
Fixpoint coalesce_spec (all q : list update) : list update :=
  match q with
  | [] => []
  | x :: q' =>
      if is_fetch x &&
         (existsb (fun y => is_fetch y && (uid y =? uid x)) q' ||
          existsb (fun y => is_exists_or_expunge y && (uid y =? uid x)) all)
      then coalesce_spec all q'
      else x :: coalesce_spec all q'
  end.

(** The response is an untagged FETCH: [attributes[0].value === 'FETCH']. *)
Definition is_fetch_response (r : response) : bool :=
  match attributes r with
  | Node _ v :: _ => String.eqb v "FETCH"
  | _ => false
  end.

Definition fetch_responses (ev : list event) : list response :=
  List.filter is_fetch_response (responses ev).

(** [uidList] at the moment the third loop of a flush of [sel] has gone
    through the records [pre] (a prefix of the survivors). *)
Definition uidList_after (sid : string) (sel : selected_t) (pre : list update)
    : list Z :=
  uidList
    (w_sel
       (walk sid (skip_of (notifications sel))
          {| w_sel := set_notifications (survivors (notifications sel)) sel;
             changed := false; existsResponse := None |} pre).1).

(** The FETCH response for the record [x] when [uidList] is [l]. *)
Definition fetch_response_for (l : list Z) (condstore : bool) (x : update) : response :=
  mk_response (indexOf l (uid x) + 1) "FETCH"
    (Some {| d_flags := flags x; d_modseq := if condstore then modseq x else 0 |}).

Definition is_exists_response (r : response) : bool :=
  match attributes r with
  | Node _ v :: _ => String.eqb v "EXISTS"
  | _ => false
  end.

(** The written object is not an EXISTS response. *)
Definition not_exists_response (o : option response) : Prop :=
  match o with
  | Some r => is_exists_response r = false
  | None => True
  end.

(** The loop invariant on [changed] and [existsResponse]: an EXPUNGE was
    written since the last EXISTS, or the deferred EXISTS carries the current
    length of [uidList], or nothing was deferred and [uidList] is still the
    list [l0] the flush started with. *)
Definition exists_inv (l0 : list Z) (st : wstate) : Prop :=
  (changed st = true /\
   (existsResponse st = None \/ exists n, existsResponse st = Some (untagged n "EXISTS"))) \/
  (changed st = false /\
   existsResponse st =
     Some (untagged (String_of (Z.of_nat (length (uidList (w_sel st))))) "EXISTS")) \/
  (changed st = false /\ existsResponse st = None /\ uidList (w_sel st) = l0).

(** From [c] to [c'] with effects [ev]: the identity of the connection is
    kept, nothing was added to [server.connections], a closed connection
    stayed closed in the same state, and a socket whose writable side is
    closed stayed so and no payload was handed to it. *)
Definition kept (c c' : connection) (ev : list event) : Prop :=
  self c' = self c /\
  connections (_server c') ⊆ connections (_server c) /\
  (_closed c = true -> _closed c' = true /\ state c' = state c) /\
  (writable (_socket c) = false -> writable (_socket c') = false /\ sent ev = []).

(** At most one listener record is live: a record that was not cleared is the
    one [_listenerData] points to, and [_listenerData] never points to a
    cleared (or missing) record. *)
Definition listeners_wf (c : connection) : Prop :=
  (forall lid L, listeners c !! lid = Some L -> cleared L = false ->
                 _listenerData c = Some lid) /\
  (forall lid, _listenerData c = Some lid ->
               exists L, listeners c !! lid = Some L /\ cleared L = false).

(** [send] would throw: the socket is writable and [compression] is set, but
    [_deflate] is [false] or [null]. *)
Definition send_throws (c : connection) : bool :=
  writable (_socket c) && compression c && negb (_deflate c).

(** The message is not the deletion of the selected mailbox. *)
Definition not_delete_of (sel : selected_t) (m : option message) : Prop :=
  match m with
  | Some m => String.eqb (action m) "DELETE" && String.eqb (m_mailbox m) (mailbox sel) = false
  | None => True
  end.

Definition set_idling (b : bool) (c : connection) : connection :=
  {| self := self c; id := id c; compression := compression c;
     _deflate := _deflate c; _inflate := _inflate c; _dataStream := _dataStream c;
     _server := _server c; _socket := _socket c; _parser := _parser c;
     _upgrading := _upgrading c; _currentCommand := _currentCommand c;
     state := state c; listeners := listeners c; _listenerData := _listenerData c;
     selected := selected c; idling := b; _closing := _closing c;
     _closed := _closed c |}.

Definition is_getUpdates (e : event) : bool :=
  match e with EvGetUpdates _ _ _ => true | _ => false end.

Definition is_expunge_response (r : response) : bool :=
  match attributes r with
  | Node _ v :: _ => String.eqb v "EXPUNGE"
  | _ => false
  end.

(** Number of EXPUNGE responses among the effects. *)
Definition expunge_count (ev : list event) : nat :=
  length (List.filter is_expunge_response (responses ev)).

(** The record is an EXISTS that the third loop appends: not skipped and not
    echo-suppressed. *)
Definition is_appended (sid : string) (skip : gset Z) (x : update) : bool :=
  String.eqb (command x) "EXISTS" && negb (ignored sid x) &&
  negb (bool_decide (uid x ∈ skip)).

(** * Properties *)

Example ex_coalesced :
  let r := emitNotifications
             (mk_conn (Some (mk_selected [10; 11]
                [upd "EXISTS" 12 1; upd "EXISTS" 13 2; upd "EXISTS" 14 3]))) in
  written r.2 = [Some (untagged "5" "EXISTS")] /\
  (uidList <$> selected r.1) = Some [10; 11; 12; 13; 14].
Proof. vm_compute. split; reflexivity. Qed.

(** ** Basic facts on the primitives *)

Lemma indexOf_lower (l : list Z) (u : Z) : -1 <= indexOf l u.
Proof.
  induction l as [|x l IH]; simpl; [lia|].
  destruct (Z.eqb x u); [lia|].
  destruct (Z.ltb_spec (indexOf l u) 0); lia.
Qed.

Lemma indexOf_absent (l : list Z) (u : Z) : indexOf l u < 0 <-> u ∉ l.
Proof.
  induction l as [|x l IH]; simpl.
  - split; [intros _; apply not_elem_of_nil | lia].
  - rewrite not_elem_of_cons.
    destruct (Z.eqb_spec x u) as [->|Hne].
    + split; [lia | intros [? _]; congruence].
    + pose proof (indexOf_lower l u).
      destruct (Z.ltb_spec (indexOf l u) 0) as [Hlt|Hge].
      * split; [intros _; split; [congruence | apply IH; lia] | lia].
      * split; [lia | intros [_ Hn]; apply IH in Hn; lia].
Qed.

Lemma indexOf_present (l : list Z) (u : Z) :
  u ∈ l -> 0 <= indexOf l u /\ l !! Z.to_nat (indexOf l u) = Some u.
Proof.
  induction l as [|x l IH]; simpl; intros Hin.
  - by apply elem_of_nil in Hin.
  - destruct (Z.eqb_spec x u) as [->|Hne]; [done|].
    apply elem_of_cons in Hin as [?|Hin]; [congruence|].
    destruct (IH Hin) as [H0 Hl].
    destruct (Z.ltb_spec (indexOf l u) 0); [lia|].
    split; [lia|].
    replace (Z.to_nat (indexOf l u + 1)) with (S (Z.to_nat (indexOf l u))) by lia.
    done.
Qed.

Lemma indexOf_app_l (l l' : list Z) (u : Z) :
  u ∈ l -> indexOf (l ++ l') u = indexOf l u.
Proof.
  induction l as [|x l IH]; simpl; intros Hin.
  - by apply elem_of_nil in Hin.
  - destruct (Z.eqb_spec x u) as [->|Hne]; [done|].
    apply elem_of_cons in Hin as [?|Hin]; [congruence|].
    by rewrite IH.
Qed.

Lemma ignored_false_iff (sid : string) (x : update) :
  ignored sid x = false <-> ignore x ≠ Some sid.
Proof.
  unfold ignored. destruct (ignore x) as [s|]; [|done].
  destruct (String.eqb_spec s sid); split; congruence.
Qed.

(** [String(this.selected.uidList.length)] after an EXISTS or an EXPUNGE, and
    the synthesized EXISTS, are plain untagged responses. *)
Lemma mk_response_plain (seq : Z) (cmd : string) :
  mk_response seq cmd None = untagged (String_of seq) cmd.
Proof. reflexivity. Qed.

(** ** The guard of [emitNotifications] *)

Lemma emitNotifications_noop (c : connection) :
  state c ≠ "Selected" \/ selected c = None \/
  (exists sel, selected c = Some sel /\ notifications sel = []) ->
  emitNotifications c = (c, []).
Proof.
  intros H. unfold emitNotifications.
  destruct (String.eqb_spec (state c) "Selected") as [Hs|Hs]; simpl; [|done].
  destruct H as [H|[H|(sel & H & Hq)]].
  - congruence.
  - by rewrite H.
  - by rewrite H, Hq.
Qed.

(** C10: with a session state other than 'Selected', with no selected mailbox,
    or with an empty notification queue, [emitNotifications] performs no
    effect at all and returns the connection record as it was (so [uidList],
    [modifyIndex] and the queue are unchanged). *)
Theorem emitNotifications_guard_noop (c : connection) :
  state c ≠ "Selected" \/ selected c = None \/
  (exists sel, selected c = Some sel /\ notifications sel = []) ->
  emitNotifications c = (c, []).
Proof.
  intros H. unfold emitNotifications.
  destruct (String.eqb_spec (state c) "Selected") as [Hs|Hs]; simpl; [|done].
  destruct H as [H|[H|(sel & H & Hq)]].
  - congruence.
  - by rewrite H.
  - by rewrite H, Hq.
Qed.

Lemma emitNotifications_guard_noop_witness :
  emitNotifications (mk_conn None) = (mk_conn None, []) /\
  emitNotifications (mk_conn (Some (mk_selected [10; 11] []))) =
    (mk_conn (Some (mk_selected [10; 11] [])), []).
Proof.
  split.
  - apply emitNotifications_guard_noop. right; left; reflexivity.
  - apply emitNotifications_guard_noop. right; right.
    exists (mk_selected [10; 11] []). split; reflexivity.
Defined.

(** ** The command gate *)

(** A frame that arrives during the upgrade is taken from the parser and
    thrown away: [callback] is called for it, although nothing is dispatched. *)
Lemma upgrade_gate_consumes_counterexample :
  let c := set_upgrading true (mk_conn None) in
  let f := {| final := true; value := "a2 NOOP" |} in
  _onCommand f c = (c, [EvCallback]) /\ ~ upgrade_gate_claim f c.
Proof.
  intros c f. split; [reflexivity|].
  intros H. destruct (H eq_refl) as [_ Hn]. apply Hn. simpl. left.
Qed.

(** C7 (amended): while [_upgrading] is set, every frame handed to
    [_onCommand] is consumed and dropped: the only effect is the direct call
    of [callback], which reports the frame as processed; no reply is written,
    no command object is created, nothing is appended to or ended on a command
    (the calls through which a command reaches its handler), and the
    connection record is unchanged, however many frames arrive. *)
Theorem upgrading_blocks_dispatch (frames : list frame) (c : connection) :
  _upgrading c = true ->
  exec (map OpOnCommand frames) c = (c, map (fun _ => EvCallback) frames).
Proof.
  intros Hup. induction frames as [|f fs IH]; simpl; [done|].
  unfold _onCommand at 1. rewrite Hup. by rewrite IH.
Qed.

Lemma upgrading_blocks_dispatch_witness :
  let c := set_upgrading true (mk_conn None) in
  let fs := [ {| final := false; value := "a1 LOGIN {5}" |};
              {| final := true; value := "a2 NOOP" |} ] in
  exec (map OpOnCommand fs) c = (c, [EvCallback; EvCallback]).
Proof.
  intros c fs. apply (upgrading_blocks_dispatch fs c). reflexivity.
Defined.

(** ** Shutdown *)

Lemma delete_twice (X : gset nat) (a : nat) : X ∖ {[a]} ∖ {[a]} = X ∖ {[a]}.
Proof.
  apply set_eq. intros x. rewrite !elem_of_difference. tauto.
Qed.

Lemma unregister_idem (c : connection) : unregister (unregister c) = unregister c.
Proof.
  unfold unregister; simpl. by rewrite delete_twice.
Qed.

Lemma close_after_close (c : connection) : close (close c).1 = ((close c).1, []).
Proof.
  unfold close.
  destruct (destroyed (_socket c)) eqn:Hd, (writable (_socket c)) eqn:Hw; simpl;
    rewrite ?Hd, ?Hw; simpl;
    unfold set_closing, unregister; simpl; by rewrite delete_twice.
Qed.

Lemma _onClose_sets_closed (c : connection) : _closed (_onClose c).1 = true.
Proof.
  unfold _onClose. destruct (_closed c) eqn:Hc; [done|].
  match goal with |- context [match ?o with Some _ => _ | None => _ end] =>
    destruct o as [[lid L]|] end.
  - unfold clear. destruct (_ !! lid); simpl; rewrite ?Hc; done.
  - simpl; rewrite ?Hc; done.
Qed.

(** C9: a second [close()] changes nothing and performs no effect: the socket
    is ended by at most one of the two calls, deleting the connection from
    [server.connections] twice is the same as deleting it once, and a second
    [_onClose()] returns at its [_closed] guard without any effect. *)
Theorem close_twice_same_as_once (c : connection) :
  close (close c).1 = ((close c).1, []) /\
  (socket_ends ((close c).2 ++ (close (close c).1).2) <= 1)%nat /\
  unregister (unregister c) = unregister c /\
  _closed (_onClose c).1 = true /\
  _onClose (_onClose c).1 = ((_onClose c).1, []).
Proof.
  split; [apply close_after_close|].
  split.
  { rewrite close_after_close; simpl. rewrite app_nil_r.
    unfold close. destruct (negb _ && _); simpl; unfold socket_ends; simpl; lia. }
  split; [apply unregister_idem|].
  split; [apply _onClose_sets_closed|].
  pose proof (_onClose_sets_closed c) as H.
  unfold _onClose at 1. by rewrite H.
Qed.

(** ** The MODSEQ cursor *)

Lemma modifyIndex_le_same (c c' : connection) :
  selected c' = selected c -> modifyIndex_le c c'.
Proof.
  unfold modifyIndex_le. intros ->. destruct (selected c); [lia|done].
Qed.

Lemma modifyIndex_le_trans (c1 c2 c3 : connection) :
  modifyIndex_le c1 c2 -> modifyIndex_le c2 c3 -> modifyIndex_le c1 c3.
Proof.
  unfold modifyIndex_le.
  destruct (selected c1), (selected c2), (selected c3); try done; lia.
Qed.

Lemma advance_modifyIndex (m : Z) (s : selected_t) :
  modifyIndex (advance m s) = Z.max (modifyIndex s) m.
Proof.
  unfold advance. destruct (Z.gtb_spec m (modifyIndex s)); simpl; lia.
Qed.

Lemma advance_uidList (m : Z) (s : selected_t) : uidList (advance m s) = uidList s.
Proof. unfold advance. by destruct (_ >? _). Qed.

Lemma advance_condstoreEnabled (m : Z) (s : selected_t) :
  condstoreEnabled (advance m s) = condstoreEnabled s.
Proof. unfold advance. by destruct (_ >? _). Qed.

Lemma formatResponse_modifyIndex cmd u data s :
  modifyIndex (formatResponse cmd u data s).2 = modifyIndex s.
Proof.
  unfold formatResponse.
  destruct (String.eqb _ "EXISTS"); [done|].
  destruct (_ <? 0); [done|]. simpl. by destruct (String.eqb _ "EXPUNGE").
Qed.

Lemma walk_body_modifyIndex sid skip st x :
  modifyIndex (w_sel (walk_body sid skip st x).1) = modifyIndex (w_sel st) \/
  (modifyIndex (w_sel st) < modseq x /\
   modifyIndex (w_sel (walk_body sid skip st x).1) = modseq x).
Proof.
  assert (Hadv : modifyIndex (advance (modseq x) (w_sel st)) = modifyIndex (w_sel st) \/
                 (modifyIndex (w_sel st) < modseq x /\
                  modifyIndex (advance (modseq x) (w_sel st)) = modseq x)).
  { rewrite advance_modifyIndex. lia. }
  unfold walk_body.
  destruct (bool_decide _); [by left|].
  destruct (ignored sid x); [exact Hadv|].
  destruct (String.eqb (command x) "EXISTS").
  { destruct (formatResponse "EXISTS" _ _ _) as [r s'] eqn:E; simpl.
    replace s' with (formatResponse "EXISTS" (uid x) None (advance (modseq x) (w_sel st))).2
      by (by rewrite E).
    by rewrite formatResponse_modifyIndex. }
  destruct (String.eqb (command x) "EXPUNGE").
  { destruct (_ >=? 0); [|exact Hadv].
    destruct (formatResponse "EXPUNGE" _ _ _) as [r s'] eqn:E; simpl.
    replace s' with (formatResponse "EXPUNGE" (uid x) None (advance (modseq x) (w_sel st))).2
      by (by rewrite E).
    by rewrite formatResponse_modifyIndex. }
  destruct (String.eqb (command x) "FETCH"); [|exact Hadv].
  destruct (formatResponse "FETCH" _ _ _) as [r s'] eqn:E; simpl.
  match type of E with formatResponse ?a ?b ?d ?s = _ =>
    replace s' with (formatResponse a b d s).2 by (by rewrite E) end.
  by rewrite formatResponse_modifyIndex.
Qed.

Lemma walk_modifyIndex_le sid skip q : forall st,
  modifyIndex (w_sel st) <= modifyIndex (w_sel (walk sid skip st q).1).
Proof.
  induction q as [|x q IH]; intros st; simpl; [lia|].
  pose proof (walk_body_modifyIndex sid skip st x) as Hb.
  destruct (walk_body sid skip st x) as [st1 e1].
  specialize (IH st1). destruct (walk sid skip st1 q) as [st2 e2].
  simpl in *. lia.
Qed.

Lemma flush_modifyIndex_le sid notify sel :
  modifyIndex sel <= modifyIndex (flush sid notify sel).1.
Proof.
  unfold flush. destruct (collect _) as [added removed].
  match goal with |- context [walk ?a ?b ?st ?q] =>
    pose proof (walk_modifyIndex_le a b q st) as Hw;
    destruct (walk a b st q) as [st' ev] end.
  simpl in *. lia.
Qed.

Lemma emitNotifications_modifyIndex_le c : modifyIndex_le c (emitNotifications c).1.
Proof.
  unfold emitNotifications.
  destruct (negb _); [by apply modifyIndex_le_same|].
  destruct (selected c) as [sel|] eqn:Hs; [|by apply modifyIndex_le_same].
  destruct (notifications sel) eqn:Hq; [by apply modifyIndex_le_same|].
  pose proof (flush_modifyIndex_le (id c) (has_onNotifications (_server c)) sel) as Hf.
  destruct (flush _ _ sel) as [sel' ev]. unfold modifyIndex_le. simpl in *.
  by rewrite Hs.
Qed.

Lemma clear_selected lid c : selected (clear lid c).1 = selected c.
Proof. unfold clear. by destruct (_ !! lid). Qed.

Lemma set_lock_selected lid b c : selected (set_lock lid b c) = selected c.
Proof. unfold set_lock. by destruct (_ !! lid). Qed.

Lemma close_selected c : selected (close c).1 = selected c.
Proof. unfold close. by destruct (negb _ && _). Qed.

Lemma send_same p c : (send p c).1 = c.
Proof. unfold send. by destruct (writable _), (compression c), (_deflate c). Qed.

Lemma _onClose_selected c : selected (_onClose c).1 = selected c.
Proof.
  unfold _onClose. destruct (_closed c) eqn:Hc; [done|].
  match goal with |- context [match ?o with Some _ => _ | None => _ end] =>
    destruct o as [[lid L]|] end.
  - pose proof (clear_selected lid) as Hcl.
    match goal with |- context [clear lid ?c1] =>
      specialize (Hcl c1); destruct (clear lid c1) as [c2 e2] end.
    simpl in *. by destruct (_closed c2).
  - simpl; rewrite ?Hc; done.
Qed.

Lemma getUpdates_cb_modifyIndex_le lid err updates c :
  modifyIndex_le c (getUpdates_cb lid err updates c).1.
Proof.
  unfold getUpdates_cb.
  destruct (_ !! lid) as [L|]; [|by apply modifyIndex_le_same].
  destruct (cleared L); [by apply modifyIndex_le_same|].
  destruct err; [apply modifyIndex_le_same, set_lock_selected|].
  destruct (String.eqb _ _).
  2:{ apply modifyIndex_le_same. by rewrite clear_selected, set_lock_selected. }
  rewrite set_lock_selected.
  destruct (selected c) as [sel|] eqn:Hs.
  2:{ apply modifyIndex_le_same. by rewrite clear_selected, set_lock_selected. }
  destruct updates as [[|u0 us]|]; try (apply modifyIndex_le_same, set_lock_selected).
  match goal with |- context [set_selected (Some ?s) ?c0] =>
    assert (Hle : modifyIndex_le c (set_selected (Some s) c0)) end.
  { unfold modifyIndex_le. rewrite Hs. simpl. rewrite advance_modifyIndex. lia. }
  destruct (idling _); [|exact Hle].
  eapply modifyIndex_le_trans; [exact Hle|apply emitNotifications_modifyIndex_le].
Qed.

Lemma run_modifyIndex_le o c : modifyIndex_le c (run o c).1.
Proof.
  destruct o; simpl.
  - apply modifyIndex_le_same. unfold init_cb. destruct (_ || _); [done|].
    pose proof (send_same greeting c). destruct (send greeting c); simpl in *.
    by subst.
  - apply modifyIndex_le_same. by rewrite send_same.
  - apply modifyIndex_le_same, close_selected.
  - apply modifyIndex_le_same. unfold _onEnd. destruct (_closed c); [done|].
    pose proof (_onClose_selected c). by destruct (_onClose c).
  - apply modifyIndex_le_same, _onClose_selected.
  - apply modifyIndex_le_same. unfold _onError. destruct processed; [done|].
    destruct (_ || _); [apply close_selected|done].
  - apply modifyIndex_le_same. unfold _onTimeout. destruct (idling c); [done|].
    pose proof (send_same "* BYE Idle timeout, closing connection" c) as Hs.
    destruct (send _ c) as [c1 e1]; simpl in Hs; subst c1.
    destruct (threw e1); [done|].
    pose proof (close_selected c). by destruct (close c).
  - apply modifyIndex_le_same. unfold _onCommand. destruct (_upgrading c); [done|].
    destruct (_currentCommand c); by destruct (negb _).
  - apply modifyIndex_le_same. unfold updateNotificationListener.
    destruct (match listenerData_obj c with Some _ => _ | None => _ end); [done|].
    destruct (listenerData_obj c) as [[lid L]|].
    + pose proof (clear_selected lid c) as Hcl.
      destruct (clear lid c) as [c1 e1]; simpl in Hcl.
      destruct (selected c1) eqn:E; simpl; congruence.
    + destruct (selected c) eqn:E; simpl; congruence.
  - apply modifyIndex_le_same. unfold callback.
    destruct (match msg with Some _ => _ | None => _ end).
    + pose proof (send_same "* BYE Selected mailbox was deleted, have to disconnect" c) as Hs.
      destruct (send _ c) as [c1 e1]; simpl in Hs; subst c1.
      destruct (threw e1); [done|].
      pose proof (close_selected c). by destruct (close c).
    + destruct (_ !! lid) as [L|]; [|done].
      destruct (negb _ && _); [done|]. destruct (cleared L); [done|].
      destruct (if String.eqb _ _ then _ else _);
        [apply set_lock_selected | apply clear_selected].
  - apply getUpdates_cb_modifyIndex_le.
  - apply emitNotifications_modifyIndex_le.
  - unfold formatResponse_conn. destruct (selected c) as [sel|] eqn:Hs;
      [|by apply modifyIndex_le_same].
    unfold modifyIndex_le. rewrite Hs. simpl. rewrite formatResponse_modifyIndex. lia.
Qed.

(** C6: [selected.modifyIndex] never decreases.  Along every run of the
    connection (any sequence of its entry points, from any state) the value at
    the end is at least the value at the start; the third loop of
    [emitNotifications] changes it only to an update's [modseq] that is
    strictly greater than the current value; and so does the notifier
    callback, with the [modseq] of the last update received. *)
Theorem modifyIndex_monotone :
  (forall ops c, modifyIndex_le c (exec ops c).1) /\
  (forall sid skip st x,
     let m' := modifyIndex (w_sel (walk_body sid skip st x).1) in
     m' = modifyIndex (w_sel st) \/ (modifyIndex (w_sel st) < modseq x /\ m' = modseq x)) /\
  (forall lid L sel u0 us c,
     listeners c !! lid = Some L -> cleared L = false ->
     state c = "Selected" -> selected c = Some sel -> idling c = false ->
     let m := modseq (List.last us u0) in
     let m' := modifyIndex <$> selected (getUpdates_cb lid None (Some (u0 :: us)) c).1 in
     m' = Some (modifyIndex sel) \/ (modifyIndex sel < m /\ m' = Some m)).
Proof.
  split; [|split].
  - induction ops as [|o ops IH]; intros c; simpl.
    + by apply modifyIndex_le_same.
    + pose proof (run_modifyIndex_le o c) as Ho.
      destruct (run o c) as [c1 e1]. specialize (IH c1).
      destruct (exec ops c1) as [c2 e2]. simpl in *.
      by eapply modifyIndex_le_trans.
  - intros. apply walk_body_modifyIndex.
  - intros lid L sel u0 us c HL Hcl Hst Hsel Hidle m m'. subst m'.
    unfold getUpdates_cb. rewrite HL, Hcl.
    assert (Hst' : state (set_lock lid false c) = state c).
    { unfold set_lock. by rewrite HL. }
    assert (Hid' : idling (set_lock lid false c) = idling c).
    { unfold set_lock. by rewrite HL. }
    rewrite Hst', Hst, set_lock_selected, Hsel. simpl.
    rewrite Hid', Hidle. simpl. rewrite advance_modifyIndex. fold m.
    destruct (Z.max_spec (modifyIndex sel) m) as [[? ->]|[? ->]]; [right|left]; done.
Qed.

Lemma modifyIndex_monotone_witness :
  let c := mk_conn (Some (mk_selected [10] [])) in
  modifyIndex_le c
    (exec [OpUpdateNotificationListener; OpCallback 0 None;
           OpGetUpdatesCb 0 None (Some [upd "EXISTS" 11 7; upd "EXISTS" 12 5]);
           OpEmitNotifications; OpClose] c).1.
Proof.
  intros c. destruct modifyIndex_monotone as [H _]. apply H.
Defined.

(** ** Errors of the notifier *)

(** A listener whose fetch is in flight when the connection closes:
    [_onClose] clears the subscription, and the error reported afterwards by
    [getUpdates] is neither logged nor is the lock released. *)
Lemma getUpdates_error_cleared_counterexample :
  let c := (exec [OpUpdateNotificationListener; OpCallback 0 None; OpOnClose]
              (mk_conn (Some (mk_selected [10] [])))).1 in
  listeners c !! 0%nat = Some {| l_mailbox := "INBOX"; lock := true; cleared := true |} /\
  getUpdates_cb 0 (Some "store unavailable") None c = (c, []) /\
  ~ getUpdates_error_claim 0 "store unavailable" None c.
Proof.
  split; [vm_compute; reflexivity|]. split; [vm_compute; reflexivity|].
  intros [H _]. vm_compute in H. by apply elem_of_nil in H.
Qed.

(** C8 (amended): when [getUpdates] reports an error, nothing is written to
    the client, and [selected] (hence [modifyIndex] and the pending queue) is
    exactly as before.  If the subscription was not cleared in the meantime,
    the only effect is the log entry and the lock is released; if it was
    cleared, the continuation returns at once, without logging and without
    touching the lock. *)
Theorem getUpdates_error_keeps_queue lid L e updates c :
  listeners c !! lid = Some L ->
  let r := getUpdates_cb lid (Some e) updates c in
  written r.2 = [] /\ sent r.2 = [] /\
  selected r.1 = selected c /\
  (cleared L = true -> r = (c, [])) /\
  (cleared L = false ->
   r = (set_lock lid false c, [EvLog "info" "updates" "[%s] Notification Error: %s"]) /\
   lock <$> listeners r.1 !! lid = Some false).
Proof.
  intros HL r. subst r. unfold getUpdates_cb. rewrite HL.
  destruct (cleared L) eqn:Hc; simpl.
  - repeat split; try done.
  - repeat split; try done.
    + apply set_lock_selected.
    + unfold set_lock. rewrite HL. simpl.
      rewrite list_lookup_insert_eq; [done|]. by eapply lookup_lt_Some.
Qed.

Lemma getUpdates_error_keeps_queue_witness :
  let c := (exec [OpUpdateNotificationListener; OpCallback 0 None]
              (mk_conn (Some (mk_selected [10] [upd "EXISTS" 11 3])))).1 in
  let r := getUpdates_cb 0 (Some "store unavailable") None c in
  written r.2 = [] /\ selected r.1 = selected c /\
  lock <$> listeners r.1 !! 0%nat = Some false.
Proof.
  intros c r.
  destruct (getUpdates_error_keeps_queue 0
              {| l_mailbox := "INBOX"; lock := true; cleared := false |}
              "store unavailable" None c eq_refl) as (Hw & _ & Hs & _ & Hl).
  destruct (Hl eq_refl) as [_ Hlock].
  split; [exact Hw|]. split; [exact Hs|exact Hlock].
Defined.

(** ** The flush: sets and survivors *)

Lemma collect_step_fst acc x u :
  u ∈ (collect_step acc x).1 <->
  u ∈ acc.1 \/ (command x = "EXISTS" /\ uid x = u).
Proof.
  unfold collect_step.
  destruct (String.eqb_spec (command x) "EXISTS") as [He|He]; simpl.
  - rewrite elem_of_union, elem_of_singleton. naive_solver.
  - destruct (String.eqb (command x) "EXPUNGE"); simpl; naive_solver.
Qed.

Lemma collect_step_snd acc x u :
  u ∈ (collect_step acc x).2 <->
  u ∈ acc.2 \/ (command x = "EXPUNGE" /\ uid x = u).
Proof.
  unfold collect_step.
  destruct (String.eqb_spec (command x) "EXISTS") as [He|He]; simpl.
  - rewrite He. naive_solver.
  - destruct (String.eqb_spec (command x) "EXPUNGE") as [Hx|Hx]; simpl.
    + rewrite elem_of_union, elem_of_singleton. naive_solver.
    + naive_solver.
Qed.

Lemma collect_acc q : forall acc u,
  (u ∈ (foldl collect_step acc q).1 <->
   u ∈ acc.1 \/ exists x, x ∈ q /\ command x = "EXISTS" /\ uid x = u) /\
  (u ∈ (foldl collect_step acc q).2 <->
   u ∈ acc.2 \/ exists x, x ∈ q /\ command x = "EXPUNGE" /\ uid x = u).
Proof.
  induction q as [|x q IH]; intros acc u; simpl.
  - split; (split; [by left | intros [?|(y & Hy & _)]; [done|by apply elem_of_nil in Hy]]).
  - destruct (IH (collect_step acc x) u) as [IH1 IH2].
    rewrite IH1, IH2, collect_step_fst, collect_step_snd.
    split; (split;
      [ intros [[?|[? ?]]|(y & ? & ? & ?)];
        [ by left | right; exists x; split; [left|done]
        | right; exists y; split; [by right|done] ]
      | intros [?|(y & Hy & ? & ?)]; [by left; left|];
        apply elem_of_cons in Hy as [->|Hy];
        [ by left; right | right; by exists y ] ]).
Qed.

(** [added] holds the UIDs of the EXISTS records of the queue. *)
Lemma elem_of_added q u :
  u ∈ (collect q).1 <-> exists x, x ∈ q /\ command x = "EXISTS" /\ uid x = u.
Proof.
  unfold collect. destruct (collect_acc q (∅, ∅) u) as [H _]. rewrite H. simpl.
  split; [intros [H0|?]; [by apply not_elem_of_empty in H0|done] | by right].
Qed.

(** [removed] holds the UIDs of the EXPUNGE records of the queue. *)
Lemma elem_of_removed q u :
  u ∈ (collect q).2 <-> exists x, x ∈ q /\ command x = "EXPUNGE" /\ uid x = u.
Proof.
  unfold collect. destruct (collect_acc q (∅, ∅) u) as [_ H]. rewrite H. simpl.
  split; [intros [H0|?]; [by apply not_elem_of_empty in H0|done] | by right].
Qed.

Lemma elem_of_skip_set added removed u :
  u ∈ skip_set added removed <-> u ∈ added /\ u ∈ removed.
Proof. unfold skip_set. rewrite elem_of_filter. tauto. Qed.

(** Records other than FETCH are never spliced out by the second loop, and
    every record that is left was in the queue. *)
Lemma filter_fetches_keeps added removed q x :
  x ∈ q -> command x ≠ "FETCH" -> x ∈ (filter_fetches added removed q).2.
Proof.
  induction q as [|y q IH]; simpl; intros Hin Hc.
  - by apply elem_of_nil in Hin.
  - destruct (filter_fetches added removed q) as [fs r]. simpl in IH.
    apply elem_of_cons in Hin as [<-|Hin].
    + destruct (String.eqb_spec (command x) "FETCH"); [done|]. simpl. by left.
    + destruct (String.eqb (command y) "FETCH"); [destruct (_ || _)|]; simpl;
        try right; by apply IH.
Qed.

Lemma filter_fetches_subset added removed q x :
  x ∈ (filter_fetches added removed q).2 -> x ∈ q.
Proof.
  induction q as [|y q IH]; simpl; [done|].
  destruct (filter_fetches added removed q) as [fs r]. simpl in IH.
  destruct (String.eqb (command y) "FETCH"); [destruct (_ || _)|]; simpl;
    rewrite ?elem_of_cons; naive_solver.
Qed.

Lemma formatResponse_EXISTS u data s :
  formatResponse "EXISTS" u data s =
  (Some (mk_response (Z.of_nat (length (uidList s ++ [u]))) "EXISTS" data),
   set_uidList (uidList s ++ [u]) s).
Proof. reflexivity. Qed.

Lemma formatResponse_EXPUNGE u data s :
  formatResponse "EXPUNGE" u data s =
  if indexOf (uidList s) u <? 0 then (None, s)
  else (Some (mk_response (indexOf (uidList s) u + 1) "EXPUNGE" data),
        set_uidList (splice1 (indexOf (uidList s) u + 1 - 1) (uidList s)) s).
Proof. reflexivity. Qed.

Lemma formatResponse_FETCH u data s :
  formatResponse "FETCH" u data s =
  if indexOf (uidList s) u <? 0 then (None, s)
  else (Some (mk_response (indexOf (uidList s) u + 1) "FETCH" data), s).
Proof. reflexivity. Qed.

Lemma written_app e1 e2 : written (e1 ++ e2) = written e1 ++ written e2.
Proof. unfold written. apply omap_app. Qed.

Lemma responses_app e1 e2 : responses (e1 ++ e2) = responses e1 ++ responses e2.
Proof. unfold responses. apply omap_app. Qed.

(** [flush], with the pattern-matching lets of its definition resolved. *)
Lemma flush_unfold sid notify sel :
  flush sid notify sel =
  let q := survivors (notifications sel) in
  let r := walk sid (skip_of (notifications sel))
             {| w_sel := set_notifications q sel; changed := false;
                existsResponse := None |} q in
  (set_notifications [] (w_sel r.1),
   EvLog "info" "notifications" "[%s] Pending notifications: %s" ::
   r.2 ++ exists_tail r.1 ++
   (if notify then [EvOnNotifications (mailbox (w_sel r.1)) (modifyIndex (w_sel r.1))]
    else [])).
Proof.
  unfold flush, survivors, skip_of.
  destruct (collect (notifications sel)) as [added removed]. simpl.
  by destruct (walk _ _ _ _).
Qed.

(** [emitNotifications] once its guard has passed. *)
Lemma emitNotifications_flush c sel :
  state c = "Selected" -> selected c = Some sel -> notifications sel ≠ [] ->
  emitNotifications c =
  (set_selected (Some (flush (id c) (has_onNotifications (_server c)) sel).1) c,
   (flush (id c) (has_onNotifications (_server c)) sel).2).
Proof.
  intros Hs Hsel Hq. unfold emitNotifications. rewrite Hs, Hsel. simpl.
  destruct (notifications sel) eqn:E; [done|]. by destruct (flush _ _ sel).
Qed.

(** ** Coalesced EXISTS *)

Lemma walk_exists_only sid skip q : forall st,
  Forall (fun x => command x = "EXISTS") q ->
  (forall x, x ∈ q -> uid x ∉ skip) ->
  let r := walk sid skip st q in
  uidList (w_sel r.1) = uidList (w_sel st) ++ fresh sid q /\
  written r.2 = [] /\
  changed r.1 = match fresh sid q with [] => changed st | _ => false end /\
  existsResponse r.1 =
    match fresh sid q with
    | [] => existsResponse st
    | _ => Some (untagged
                   (String_of (Z.of_nat (length (uidList (w_sel st) ++ fresh sid q))))
                   "EXISTS")
    end.
Proof.
  induction q as [|x q IH]; intros st Hall Hskip; simpl.
  - rewrite app_nil_r. done.
  - apply Forall_cons in Hall as [Hx Hall].
    assert (Hsk : uid x ∉ skip) by (apply Hskip; by left).
    assert (Hskip' : forall y, y ∈ q -> uid y ∉ skip) by (intros y Hy; apply Hskip; by right).
    unfold walk_body. rewrite bool_decide_eq_false_2 by done.
    destruct (ignored sid x) eqn:Hig.
    + match goal with |- context [walk sid skip ?st1 q] =>
        destruct (IH st1 Hall Hskip') as (H1 & H2 & H3 & H4);
        destruct (walk sid skip st1 q) as [st2 e2] end.
      unfold fresh in *. simpl in *. rewrite Hig. simpl.
      rewrite advance_uidList in H1, H4. done.
    + rewrite Hx. simpl String.eqb. cbv iota. rewrite formatResponse_EXISTS.
      match goal with |- context [walk sid skip ?st1 q] =>
        destruct (IH st1 Hall Hskip') as (H1 & H2 & H3 & H4);
        destruct (walk sid skip st1 q) as [st2 e2] end.
      unfold fresh in *. simpl in *. rewrite Hig. simpl.
      rewrite advance_uidList in H1, H4.
      rewrite H1, H3, H4, <- !(assoc_L (++)). simpl.
      split; [done|]. split; [done|].
      split; [by destruct (map uid _)|].
      by destruct (map uid _).
Qed.

(** When only EXISTS records survive, the queue holds no EXPUNGE record and
    [skip] is empty. *)
Lemma exists_only_no_skip q x :
  Forall (fun y => command y = "EXISTS") (survivors q) -> uid x ∉ skip_of q.
Proof.
  intros Hall Hin. apply elem_of_skip_set in Hin as [_ Hr].
  apply elem_of_removed in Hr as (y & Hy & Hc & _).
  assert (Hs : y ∈ survivors q).
  { apply filter_fetches_keeps; [done|]. by rewrite Hc. }
  rewrite Forall_forall in Hall. apply Hall in Hs. by rewrite Hc in Hs.
Qed.

(** An EXISTS record that carries the session's own id in [ignore] survives
    the second loop, yet nothing is written for it and its UID is not
    appended. *)
Lemma exists_only_ignored_counterexample :
  let x := {| command := "EXISTS"; uid := 12; modseq := 4; flags := None;
              ignore := Some "S" |} in
  let c := mk_conn (Some (mk_selected [10; 11] [x])) in
  survivors [x] = [x] /\
  written (emitNotifications c).2 = [] /\
  uidList <$> selected (emitNotifications c).1 = Some [10; 11] /\
  ~ exists_only_claim c.
Proof.
  intros x c. split; [reflexivity|]. split; [reflexivity|]. split; [reflexivity|].
  intros H.
  assert (Hall : Forall (fun y => command y = "EXISTS") (survivors [x])).
  { repeat constructor. }
  destruct (H (mk_selected [10; 11] [x]) eq_refl eq_refl ltac:(discriminate) Hall)
    as [Hr _].
  vm_compute in Hr. discriminate Hr.
Qed.

(** C1 (amended): in a flush whose surviving updates are EXISTS records only,
    the UIDs of the records that are not echo-suppressed ([ignore] differs
    from the session id) are appended to [uidList] in arrival order; if there
    is at least one such record, exactly one object is written, the untagged
    EXISTS whose number is the resulting length of [uidList]; if all of them
    are echo-suppressed, nothing is written and [uidList] is unchanged. *)
Theorem exists_only_flush (c : connection) (sel : selected_t) :
  state c = "Selected" -> selected c = Some sel -> notifications sel ≠ [] ->
  Forall (fun x => command x = "EXISTS") (survivors (notifications sel)) ->
  let r := emitNotifications c in
  let l := uidList sel ++ fresh (id c) (survivors (notifications sel)) in
  uidList <$> selected r.1 = Some l /\
  written r.2 =
    match fresh (id c) (survivors (notifications sel)) with
    | [] => []
    | _ => [Some (untagged (String_of (Z.of_nat (length l))) "EXISTS")]
    end.
Proof.
  intros Hs Hsel Hq Hall r l. subst r l.
  rewrite (emitNotifications_flush c sel Hs Hsel Hq). simpl.
  rewrite flush_unfold. simpl.
  match goal with |- context [walk ?a ?b ?st ?q] =>
    destruct (walk_exists_only a b q st Hall) as (H1 & H2 & H3 & H4);
    [ intros x _; by apply exists_only_no_skip |];
    destruct (walk a b st q) as [st' ev] end.
  simpl in *. split; [by rewrite H1|].
  rewrite !written_app, H2. unfold exists_tail. rewrite H3, H4.
  destruct (fresh (id c) _) eqn:Ef; simpl.
  - by destruct (has_onNotifications _).
  - by destruct (has_onNotifications _).
Qed.

Lemma exists_only_flush_witness :
  let c := mk_conn (Some (mk_selected [10; 11]
             [upd "EXISTS" 12 1; upd "EXISTS" 13 2; upd "EXISTS" 14 3])) in
  uidList <$> selected (emitNotifications c).1 = Some [10; 11; 12; 13; 14] /\
  written (emitNotifications c).2 = [Some (untagged "5" "EXISTS")].
Proof.
  intros c.
  refine (exists_only_flush c
            (mk_selected [10; 11]
               [upd "EXISTS" 12 1; upd "EXISTS" 13 2; upd "EXISTS" 14 3])
            eq_refl eq_refl _ _).
  - discriminate.
  - vm_compute. repeat constructor.
Defined.

(** ** EXISTS followed by EXPUNGE of a listed UID *)

Lemma delete_app_lt {A} (l l' : list A) (i : nat) :
  (i < length l)%nat -> delete i (l ++ l') = delete i l ++ l'.
Proof.
  revert i. induction l as [|x l IH]; intros i Hi; simpl in *; [lia|].
  destruct i as [|i]; simpl; [done|]. rewrite IH; [done|lia].
Qed.

Lemma indexOf_bound (l : list Z) (u : Z) :
  u ∈ l -> (Z.to_nat (indexOf l u) < length l)%nat.
Proof.
  intros Hin. destruct (indexOf_present l u Hin) as [_ Hl].
  by eapply lookup_lt_Some.
Qed.

(** C2: with the queue [EXISTS(u); EXPUNGE(v)], where [u] is not yet in
    [uidList], [v] is, and neither record is echo-suppressed, the flush writes
    the EXPUNGE at the 1-based index of [v] and then one synthesized untagged
    EXISTS whose number is the length of the resulting [uidList]; nothing else
    is written.  [uidList] ends as the old list without [v] followed by [u]:
    one append and one removal, so the synthesized EXISTS did not touch it. *)
Theorem exists_then_expunge (c : connection) (sel : selected_t) (x1 x2 : update) :
  state c = "Selected" -> selected c = Some sel ->
  notifications sel = [x1; x2] ->
  command x1 = "EXISTS" -> command x2 = "EXPUNGE" ->
  uid x1 ∉ uidList sel -> uid x2 ∈ uidList sel ->
  ignore x1 ≠ Some (id c) -> ignore x2 ≠ Some (id c) ->
  let r := emitNotifications c in
  let i := indexOf (uidList sel) (uid x2) in
  let l := splice1 i (uidList sel) ++ [uid x1] in
  uidList sel !! Z.to_nat i = Some (uid x2) /\
  written r.2 = [Some (untagged (String_of (i + 1)) "EXPUNGE");
                 Some (untagged (String_of (Z.of_nat (length l))) "EXISTS")] /\
  uidList <$> selected r.1 = Some l /\
  length l = length (uidList sel).
Proof.
  intros Hs Hsel Hq Hc1 Hc2 Hnew Hold Hi1 Hi2 r i l. subst r.
  destruct (indexOf_present _ _ Hold) as [Hi0 Hlook]. fold i in Hi0, Hlook.
  pose proof (indexOf_bound _ _ Hold) as Hlt. fold i in Hlt.
  assert (Hne : uid x1 ≠ uid x2) by (intros E; by rewrite E in Hnew).
  apply ignored_false_iff in Hi1, Hi2.
  assert (Hsk : forall u, u ∉ skip_of [x1; x2]).
  { intros u Hin. apply elem_of_skip_set in Hin as [Ha Hr].
    apply elem_of_added in Ha as (a & Ha & Hca & Hua).
    apply elem_of_removed in Hr as (b & Hb & Hcb & Hub).
    rewrite !elem_of_cons in Ha, Hb.
    destruct Ha as [->|[->|Ha]]; [|congruence|by apply elem_of_nil in Ha].
    destruct Hb as [->|[->|Hb]]; [congruence| |by apply elem_of_nil in Hb].
    congruence. }
  assert (Hsurv : survivors [x1; x2] = [x1; x2]).
  { unfold survivors. simpl. rewrite Hc1, Hc2. reflexivity. }
  assert (Hlen : length l = length (uidList sel)).
  { subst l. unfold splice1. rewrite length_app, length_delete by eauto. simpl. lia. }
  split; [exact Hlook|].
  assert (Hq' : notifications sel ≠ []) by (by rewrite Hq).
  rewrite (emitNotifications_flush c sel Hs Hsel Hq'). simpl.
  rewrite flush_unfold, Hq, Hsurv. simpl.
  unfold walk_body.
  rewrite !bool_decide_eq_false_2 by apply Hsk.
  rewrite Hi1, Hc1. simpl String.eqb. cbv iota.
  rewrite formatResponse_EXISTS. cbv beta iota zeta.
  rewrite Hi2, Hc2. simpl String.eqb. cbv iota.
  rewrite formatResponse_EXPUNGE.
  cbn [w_sel changed existsResponse].
  rewrite ?advance_uidList. cbn [uidList set_uidList set_notifications].
  rewrite ?advance_uidList. cbn [uidList set_uidList set_notifications].
  rewrite (indexOf_app_l _ _ _ Hold). fold i.
  destruct (Z.geb_spec i 0); [|lia].
  destruct (Z.ltb_spec i 0); [lia|].
  cbv beta iota zeta. simpl.
  unfold splice1. replace (i + 1 - 1) with i by lia.
  rewrite delete_app_lt by done. fold (splice1 i (uidList sel)). fold l.
  rewrite !mk_response_plain.
  split; [by destruct (has_onNotifications _)|].
  split; [done|exact Hlen].
Qed.

Lemma exists_then_expunge_witness :
  let sel := mk_selected [10; 11] [upd "EXISTS" 12 1; upd "EXPUNGE" 10 2] in
  let r := emitNotifications (mk_conn (Some sel)) in
  written r.2 = [Some (untagged "1" "EXPUNGE"); Some (untagged "2" "EXISTS")] /\
  uidList <$> selected r.1 = Some [11; 12].
Proof.
  intros sel r.
  assert (Hnew : (12 : Z) ∉ [10; 11]).
  { rewrite !not_elem_of_cons. repeat split; try discriminate. apply not_elem_of_nil. }
  assert (Hold : (10 : Z) ∈ [10; 11]) by (left).
  destruct (exists_then_expunge (mk_conn (Some sel)) sel
              (upd "EXISTS" 12 1) (upd "EXPUNGE" 10 2)
              eq_refl eq_refl eq_refl eq_refl eq_refl Hnew Hold
              ltac:(discriminate) ltac:(discriminate)) as (_ & Hw & Hl & _).
  split; [exact Hw | exact Hl].
Defined.

(** ** Updates for UIDs that are not listed *)

Lemma formatResponse_absent cmd u data s :
  toUpperCase cmd ≠ "EXISTS" -> u ∉ uidList s ->
  formatResponse cmd u data s = (None, s).
Proof.
  intros Hc Hu. unfold formatResponse.
  destruct (String.eqb_spec (toUpperCase cmd) "EXISTS"); [done|].
  apply indexOf_absent in Hu.
  destruct (Z.ltb_spec (indexOf (uidList s) u) 0); [done|lia].
Qed.

Lemma walk_body_absent sid skip st x :
  command x = "EXPUNGE" \/ command x = "FETCH" ->
  uid x ∉ uidList (w_sel st) ->
  let r := walk_body sid skip st x in
  responses r.2 = [] /\ uidList (w_sel r.1) = uidList (w_sel st) /\
  changed r.1 = changed st /\ existsResponse r.1 = existsResponse st.
Proof.
  intros Hc Hu. unfold walk_body.
  destruct (bool_decide _); [done|].
  destruct (ignored sid x); simpl; [by rewrite advance_uidList|].
  assert (Hidx : indexOf (uidList (advance (modseq x) (w_sel st))) (uid x) < 0).
  { rewrite advance_uidList. by apply indexOf_absent. }
  destruct Hc as [Hc|Hc]; rewrite Hc; simpl String.eqb; cbv iota.
  - destruct (Z.geb_spec (indexOf (uidList (advance (modseq x) (w_sel st))) (uid x)) 0);
      [lia|]. simpl. by rewrite advance_uidList.
  - rewrite formatResponse_FETCH.
    destruct (Z.ltb_spec (indexOf (uidList (advance (modseq x) (w_sel st))) (uid x)) 0);
      [|lia]. simpl. by rewrite advance_uidList.
Qed.

Lemma walk_absent sid skip (l : list Z) q : forall st,
  uidList (w_sel st) = l ->
  Forall (fun x => (command x = "EXPUNGE" \/ command x = "FETCH") /\ uid x ∉ l) q ->
  let r := walk sid skip st q in
  responses r.2 = [] /\ uidList (w_sel r.1) = l /\
  changed r.1 = changed st /\ existsResponse r.1 = existsResponse st.
Proof.
  induction q as [|x q IH]; intros st Hl Hall; simpl; [done|].
  apply Forall_cons in Hall as [[Hc Hu] Hall].
  rewrite <- Hl in Hu.
  destruct (walk_body_absent sid skip st x Hc Hu) as (B1 & B2 & B3 & B4).
  destruct (walk_body sid skip st x) as [st1 e1]. simpl in *.
  destruct (IH st1) as (W1 & W2 & W3 & W4); [congruence|done|].
  destruct (walk sid skip st1 q) as [st2 e2]. simpl in *.
  rewrite responses_app, B1, W1. repeat split; congruence.
Qed.

Lemma walk_body_EXISTS sid skip st x :
  command x = "EXISTS" -> uid x ∉ skip -> ignored sid x = false ->
  uidList (w_sel (walk_body sid skip st x).1) = uidList (w_sel st) ++ [uid x].
Proof.
  intros Hc Hs Hi. unfold walk_body.
  rewrite bool_decide_eq_false_2 by done. rewrite Hi, Hc. simpl String.eqb. cbv iota.
  rewrite formatResponse_EXISTS. simpl. by rewrite advance_uidList.
Qed.

(** C5: an EXPUNGE or FETCH record whose UID is not in [uidList] is dropped:
    [formatResponse] returns [false] for it and changes nothing; the loop body
    writes no response record for it and leaves [uidList] (and the deferred
    EXISTS and the [changed] flag) as they were; a flush in which every record
    is of this kind writes no response and leaves [uidList] unchanged.  An
    EXISTS record needs no listed UID: [formatResponse] appends its UID to
    [uidList] and numbers the response with the new length. *)
Theorem absent_uid_dropped :
  (forall cmd u data s,
     toUpperCase cmd ≠ "EXISTS" -> u ∉ uidList s ->
     formatResponse cmd u data s = (None, s)) /\
  (forall sid skip st x,
     command x = "EXPUNGE" \/ command x = "FETCH" ->
     uid x ∉ uidList (w_sel st) ->
     let r := walk_body sid skip st x in
     responses r.2 = [] /\ uidList (w_sel r.1) = uidList (w_sel st) /\
     changed r.1 = changed st /\ existsResponse r.1 = existsResponse st) /\
  (forall sid notify sel,
     Forall (fun x => (command x = "EXPUNGE" \/ command x = "FETCH") /\
                      uid x ∉ uidList sel) (notifications sel) ->
     let r := flush sid notify sel in
     responses r.2 = [] /\ uidList r.1 = uidList sel) /\
  (forall u data s,
     formatResponse "EXISTS" u data s =
     (Some (mk_response (Z.of_nat (length (uidList s)) + 1) "EXISTS" data),
      set_uidList (uidList s ++ [u]) s)) /\
  (forall sid skip st x,
     command x = "EXISTS" -> uid x ∉ skip -> ignored sid x = false ->
     uidList (w_sel (walk_body sid skip st x).1) = uidList (w_sel st) ++ [uid x]).
Proof.
  split; [exact formatResponse_absent|].
  split; [exact walk_body_absent|].
  split.
  { intros sid notify sel Hall r. subst r. rewrite flush_unfold. simpl.
    assert (Hall' : Forall (fun x => (command x = "EXPUNGE" \/ command x = "FETCH") /\
                                     uid x ∉ uidList sel)
                      (survivors (notifications sel))).
    { rewrite Forall_forall in Hall |- *. intros x Hx. apply Hall.
      by eapply filter_fetches_subset. }
    match goal with |- context [walk ?a ?b ?st ?q] =>
      destruct (walk_absent a b (uidList sel) q st eq_refl Hall') as (W1 & W2 & W3 & W4);
      destruct (walk a b st q) as [st' ev] end.
    simpl in *. rewrite !responses_app, W1. unfold exists_tail. rewrite W3, W4.
    simpl. split; [by destruct notify|done]. }
  split.
  { intros u data s. rewrite formatResponse_EXISTS. do 3 f_equal.
    rewrite length_app. simpl. lia. }
  exact walk_body_EXISTS.
Qed.

Lemma absent_uid_dropped_witness :
  formatResponse "EXPUNGE" 99 None (mk_selected [10; 11] []) =
    (None, mk_selected [10; 11] []) /\
  (let r := flush "S" false
              (mk_selected [10; 11] [upd "EXPUNGE" 99 1; upd "FETCH" 98 2]) in
   responses r.2 = [] /\ uidList r.1 = [10; 11]).
Proof.
  destruct absent_uid_dropped as (H1 & _ & H3 & _).
  assert (Hn : forall u : Z, u ≠ 10 -> u ≠ 11 -> u ∉ [10; 11]).
  { intros u ? ?. rewrite !not_elem_of_cons. repeat split; try done.
    apply not_elem_of_nil. }
  split.
  - apply H1; [discriminate | apply Hn; discriminate].
  - apply (H3 "S" false (mk_selected [10; 11] [upd "EXPUNGE" 99 1; upd "FETCH" 98 2])).
    repeat constructor; apply Hn; discriminate.
Defined.

(** ** UIDs that are added and removed in the same flush *)

Lemma elem_of_drop_uid u q x : x ∈ drop_uid u q <-> x ∈ q /\ uid x ≠ u.
Proof.
  unfold drop_uid. rewrite !list_elem_of_In, List.filter_In, negb_true_iff, Z.eqb_neq.
  tauto.
Qed.

Lemma added_drop_uid u q w :
  w ≠ u -> (w ∈ (collect (drop_uid u q)).1 <-> w ∈ (collect q).1).
Proof.
  intros Hw. rewrite !elem_of_added.
  split; intros (x & Hx & Hc & Hu); exists x.
  - apply elem_of_drop_uid in Hx as [Hx _]. done.
  - split; [|done]. apply elem_of_drop_uid. split; [done|congruence].
Qed.

Lemma removed_drop_uid u q w :
  w ≠ u -> (w ∈ (collect (drop_uid u q)).2 <-> w ∈ (collect q).2).
Proof.
  intros Hw. rewrite !elem_of_removed.
  split; intros (x & Hx & Hc & Hu); exists x.
  - apply elem_of_drop_uid in Hx as [Hx _]. done.
  - split; [|done]. apply elem_of_drop_uid. split; [done|congruence].
Qed.

Lemma filter_fetches_drop u added removed added' removed' q :
  u ∈ added ->
  (forall w, w ≠ u -> (w ∈ added' <-> w ∈ added)) ->
  (forall w, w ≠ u -> (w ∈ removed' <-> w ∈ removed)) ->
  filter_fetches added' removed' (drop_uid u q) =
  ((filter_fetches added removed q).1, drop_uid u (filter_fetches added removed q).2).
Proof.
  intros Hu Ha Hr. induction q as [|x q IH]; simpl; [done|].
  destruct (filter_fetches added removed q) as [fs r]. simpl in IH.
  destruct (Z.eqb_spec (uid x) u) as [E|E]; simpl.
  - rewrite IH. destruct (String.eqb (command x) "FETCH").
    + rewrite (bool_decide_eq_true_2 (uid x ∈ added)) by (by rewrite E).
      rewrite orb_true_r. done.
    + simpl. destruct (Z.eqb_spec (uid x) u); [done|congruence].
  - rewrite IH.
    rewrite (bool_decide_ext (uid x ∈ added') (uid x ∈ added)) by (by apply Ha).
    rewrite (bool_decide_ext (uid x ∈ removed') (uid x ∈ removed)) by (by apply Hr).
    destruct (String.eqb (command x) "FETCH"); [destruct (_ || _)|]; simpl;
      try done; destruct (Z.eqb_spec (uid x) u); done.
Qed.

Lemma walk_body_skip_ext sid skip skip' st x :
  (uid x ∈ skip' <-> uid x ∈ skip) ->
  walk_body sid skip' st x = walk_body sid skip st x.
Proof.
  intros H. unfold walk_body. by rewrite (bool_decide_ext _ _ H).
Qed.

Lemma walk_drop sid u skip skip' q : forall st,
  u ∈ skip ->
  (forall w, w ≠ u -> (w ∈ skip' <-> w ∈ skip)) ->
  walk sid skip' st (drop_uid u q) = walk sid skip st q.
Proof.
  induction q as [|x q IH]; intros st Hu Hs; simpl; [done|].
  destruct (Z.eqb_spec (uid x) u) as [E|E]; simpl.
  - rewrite IH by done. unfold walk_body.
    rewrite bool_decide_eq_true_2 by (by rewrite E).
    by destruct (walk sid skip st q).
  - rewrite (walk_body_skip_ext sid skip skip') by (by apply Hs).
    destruct (walk_body sid skip st x) as [st1 e1]. by rewrite IH.
Qed.

Lemma formatResponse_frame cmd u d n s :
  formatResponse cmd u d (set_notifications n s) =
  ((formatResponse cmd u d s).1, set_notifications n (formatResponse cmd u d s).2).
Proof.
  unfold formatResponse. simpl.
  destruct (String.eqb _ "EXISTS"); [done|].
  destruct (_ <? 0); [done|]. by destruct (String.eqb _ "EXPUNGE").
Qed.

Lemma advance_frame m n s :
  advance m (set_notifications n s) = set_notifications n (advance m s).
Proof. unfold advance. simpl. by destruct (_ >? _). Qed.

Lemma walk_body_frame sid skip n st x :
  walk_body sid skip (with_queue n st) x =
  (with_queue n (walk_body sid skip st x).1, (walk_body sid skip st x).2).
Proof.
  unfold walk_body. destruct (bool_decide _); [done|].
  cbn [with_queue w_sel changed existsResponse].
  rewrite advance_frame.
  destruct (ignored sid x); [done|].
  destruct (String.eqb (command x) "EXISTS").
  { rewrite formatResponse_frame. by destruct (formatResponse _ _ _ _). }
  destruct (String.eqb (command x) "EXPUNGE").
  { cbn [uidList set_notifications]. destruct (_ >=? 0); [|done].
    rewrite formatResponse_frame. by destruct (formatResponse _ _ _ _). }
  destruct (String.eqb (command x) "FETCH"); [|done].
  cbn [condstoreEnabled set_notifications].
  rewrite formatResponse_frame. by destruct (formatResponse _ _ _ _).
Qed.

Lemma walk_frame sid skip n q : forall st,
  walk sid skip (with_queue n st) q =
  (with_queue n (walk sid skip st q).1, (walk sid skip st q).2).
Proof.
  induction q as [|x q IH]; intros st; simpl; [done|].
  rewrite walk_body_frame. destruct (walk_body sid skip st x) as [st1 e1]. simpl.
  rewrite IH. by destruct (walk sid skip st1 q).
Qed.

Lemma flush_start_frame sid skip n sel q :
  walk sid skip {| w_sel := set_notifications n sel; changed := false;
                   existsResponse := None |} q =
  (with_queue n (walk sid skip {| w_sel := sel; changed := false;
                                  existsResponse := None |} q).1,
   (walk sid skip {| w_sel := sel; changed := false; existsResponse := None |} q).2).
Proof.
  exact (walk_frame sid skip n q
           {| w_sel := sel; changed := false; existsResponse := None |}).
Qed.

(** Flushing a queue and flushing it without the records of a UID that is
    both added and removed are the same computation. *)
Lemma flush_drop_uid sid notify sel u :
  u ∈ (collect (notifications sel)).1 -> u ∈ (collect (notifications sel)).2 ->
  flush sid notify (set_notifications (drop_uid u (notifications sel)) sel) =
  flush sid notify sel.
Proof.
  intros Ha Hr. rewrite !flush_unfold. cbn [notifications set_notifications].
  set (q := notifications sel) in *.
  assert (Hsurv : survivors (drop_uid u q) = drop_uid u (survivors q)).
  { unfold survivors.
    rewrite (filter_fetches_drop u (collect q).1 (collect q).2); try done.
    - intros w Hw. by apply added_drop_uid.
    - intros w Hw. by apply removed_drop_uid. }
  assert (Hskip : forall w, w ≠ u -> (w ∈ skip_of (drop_uid u q) <-> w ∈ skip_of q)).
  { intros w Hw. unfold skip_of. rewrite !elem_of_skip_set.
    by rewrite added_drop_uid, removed_drop_uid. }
  assert (Hu : u ∈ skip_of q) by (by apply elem_of_skip_set).
  rewrite Hsurv. cbv zeta.
  change (set_notifications (drop_uid u (survivors q))
            (set_notifications (drop_uid u q) sel))
    with (set_notifications (drop_uid u (survivors q)) sel).
  rewrite (flush_start_frame sid (skip_of (drop_uid u q))).
  rewrite (flush_start_frame sid (skip_of q) (survivors q)).
  rewrite (walk_drop sid u (skip_of q)) by done.
  generalize (walk sid (skip_of q)
                {| w_sel := sel; changed := false; existsResponse := None |}
                (survivors q)).
  intros [st ev]. reflexivity.
Qed.

Lemma filter_eq_delete (u v : Z) (l : list Z) (i : nat) :
  l !! i = Some v -> v ≠ u ->
  filter (fun w => w = u) (delete i l) = filter (fun w => w = u) l.
Proof.
  revert i. induction l as [|x l IH]; intros i Hl Hv; [done|].
  destruct i as [|i]; simpl in *.
  - injection Hl as ->. by rewrite filter_cons_False.
  - rewrite !filter_cons. by rewrite (IH i).
Qed.

(** Occurrences of [u] in [uidList] are untouched by a loop body that skips
    the records of [u]. *)
Lemma walk_body_occurrences sid skip st x u :
  (uid x = u -> u ∈ skip) ->
  filter (fun w => w = u) (uidList (w_sel (walk_body sid skip st x).1)) =
  filter (fun w => w = u) (uidList (w_sel st)).
Proof.
  intros Hu. unfold walk_body.
  destruct (bool_decide (uid x ∈ skip)) eqn:Hs; [done|].
  apply bool_decide_eq_false in Hs.
  assert (Hne : uid x ≠ u) by (intros E; apply Hs; rewrite E; by apply Hu).
  destruct (ignored sid x); [simpl; by rewrite advance_uidList|].
  destruct (String.eqb (command x) "EXISTS").
  { rewrite formatResponse_EXISTS. simpl. rewrite advance_uidList, filter_app.
    rewrite (filter_cons_False _ (uid x)) by done. by rewrite filter_nil, app_nil_r. }
  destruct (String.eqb (command x) "EXPUNGE").
  { destruct (Z.geb_spec (indexOf (uidList (advance (modseq x) (w_sel st))) (uid x)) 0)
      as [Hge|Hlt]; simpl; [|by rewrite advance_uidList].
    rewrite formatResponse_EXPUNGE.
    destruct (Z.ltb_spec (indexOf (uidList (advance (modseq x) (w_sel st))) (uid x)) 0)
      as [Hlt|_]; [lia|]. simpl. rewrite advance_uidList in *.
    assert (Hin : uid x ∈ uidList (w_sel st)).
    { destruct (decide (uid x ∈ uidList (w_sel st))) as [|Hn]; [done|].
      apply indexOf_absent in Hn. lia. }
    destruct (indexOf_present _ _ Hin) as [_ Hl].
    unfold splice1.
    replace (indexOf (uidList (w_sel st)) (uid x) + 1 - 1)
      with (indexOf (uidList (w_sel st)) (uid x)) by lia.
    by apply (filter_eq_delete u (uid x)). }
  destruct (String.eqb (command x) "FETCH"); simpl; [|by rewrite advance_uidList].
  rewrite formatResponse_FETCH. destruct (_ <? 0); simpl; by rewrite advance_uidList.
Qed.

Lemma walk_occurrences sid skip u q : forall st,
  u ∈ skip ->
  filter (fun w => w = u) (uidList (w_sel (walk sid skip st q).1)) =
  filter (fun w => w = u) (uidList (w_sel st)).
Proof.
  induction q as [|x q IH]; intros st Hu; simpl; [done|].
  pose proof (walk_body_occurrences sid skip st x u (fun _ => Hu)) as Hb.
  destruct (walk_body sid skip st x) as [st1 e1].
  specialize (IH st1 Hu). destruct (walk sid skip st1 q) as [st2 e2].
  simpl in *. congruence.
Qed.

(** C3: a UID [u] that occurs in an EXISTS record and in an EXPUNGE record of
    the queue leaves no trace of the flush.  The flush ends in the same
    connection state, and writes the same objects in the same order, as the
    flush of the queue from which all records of [u] were taken out; and the
    occurrences of [u] in [uidList] are the same after the flush as before (in
    particular [u] is not appended). *)
Theorem added_and_removed_uid_suppressed (c : connection) (sel : selected_t)
    (x1 x2 : update) (u : Z) :
  state c = "Selected" -> selected c = Some sel ->
  x1 ∈ notifications sel -> command x1 = "EXISTS" -> uid x1 = u ->
  x2 ∈ notifications sel -> command x2 = "EXPUNGE" -> uid x2 = u ->
  let r := emitNotifications c in
  let r' := emitNotifications (set_queue (drop_uid u (notifications sel)) c) in
  r.1 = r'.1 /\ written r.2 = written r'.2 /\
  exists sel', selected r.1 = Some sel' /\
    filter (fun w => w = u) (uidList sel') = filter (fun w => w = u) (uidList sel).
Proof.
  intros Hs Hsel Hx1 Hc1 Hu1 Hx2 Hc2 Hu2 r r'.
  assert (Ha : u ∈ (collect (notifications sel)).1).
  { apply elem_of_added. by exists x1. }
  assert (Hr : u ∈ (collect (notifications sel)).2).
  { apply elem_of_removed. by exists x2. }
  assert (Hq : notifications sel ≠ []).
  { intros E. rewrite E in Hx1. by apply elem_of_nil in Hx1. }
  subst r r'. rewrite (emitNotifications_flush c sel Hs Hsel Hq).
  unfold set_queue. rewrite Hsel. cbn [fmap option_fmap option_map].
  set (sel0 := set_notifications (drop_uid u (notifications sel)) sel).
  set (c0 := set_selected (Some sel0) c).
  pose proof (flush_drop_uid (id c) (has_onNotifications (_server c)) sel u Ha Hr) as Hfl.
  fold sel0 in Hfl.
  assert (Hocc : filter (fun w => w = u)
                   (uidList (flush (id c) (has_onNotifications (_server c)) sel).1) =
                 filter (fun w => w = u) (uidList sel)).
  { rewrite flush_unfold. cbn [fst uidList set_notifications].
    rewrite walk_occurrences; [done|]. by apply elem_of_skip_set. }
  destruct (drop_uid u (notifications sel)) as [|y q'] eqn:Hd.
  - (* every record of the queue is about [u] *)
    assert (He : emitNotifications c0 = (c0, [])).
    { apply emitNotifications_noop. right; right. by exists sel0. }
    rewrite He. rewrite <- Hfl. rewrite flush_unfold. subst sel0 c0.
    cbn. split; [done|]. split; [by destruct (has_onNotifications _)|].
    eexists; split; [reflexivity|]. cbn.
    rewrite <- Hocc, <- Hfl, flush_unfold. reflexivity.
  - assert (Hq0 : notifications sel0 ≠ []) by (subst sel0; simpl; rewrite ?Hd; done).
    rewrite (emitNotifications_flush c0 sel0 Hs eq_refl Hq0).
    subst c0. cbn [id _server set_selected]. rewrite Hfl.
    split; [done|]. split; [done|].
    eexists; split; [reflexivity|exact Hocc].
Qed.

Lemma added_and_removed_uid_suppressed_witness :
  let sel := mk_selected [10] [upd "EXISTS" 11 1; upd "EXPUNGE" 11 2] in
  let r := emitNotifications (mk_conn (Some sel)) in
  written r.2 = [] /\ uidList <$> selected r.1 = Some [10].
Proof.
  intros sel r.
  destruct (added_and_removed_uid_suppressed (mk_conn (Some sel)) sel
              (upd "EXISTS" 11 1) (upd "EXPUNGE" 11 2) 11
              eq_refl eq_refl ltac:(left) eq_refl eq_refl
              ltac:(right; left) eq_refl eq_refl) as (H1 & H2 & _).
  split.
  - etransitivity; [exact H2|reflexivity].
  - fold r in H1. rewrite H1. reflexivity.
Defined.

(** ** FETCH coalescing and echo suppression *)

Lemma is_fetch_true x : is_fetch x = true <-> command x = "FETCH".
Proof. unfold is_fetch. apply String.eqb_eq. Qed.

Lemma existsb_later_fetch q u :
  existsb (fun y => is_fetch y && (uid y =? u)) q = true <->
  exists y, y ∈ q /\ command y = "FETCH" /\ uid y = u.
Proof.
  rewrite List.existsb_exists. split.
  - intros (y & Hy & Hb). apply andb_true_iff in Hb as [H1 H2].
    exists y. rewrite list_elem_of_In. by rewrite <- is_fetch_true, <- Z.eqb_eq.
  - intros (y & Hy & Hc & Hu). exists y. rewrite <- list_elem_of_In.
    split; [done|]. apply andb_true_iff. by rewrite is_fetch_true, Z.eqb_eq.
Qed.

Lemma existsb_added_or_removed q u :
  existsb (fun y => is_exists_or_expunge y && (uid y =? u)) q = true <->
  u ∈ (collect q).1 \/ u ∈ (collect q).2.
Proof.
  rewrite List.existsb_exists, elem_of_added, elem_of_removed. split.
  - intros (y & Hy & Hb). apply andb_true_iff in Hb as [H1 H2].
    apply Z.eqb_eq in H2. apply list_elem_of_In in Hy.
    unfold is_exists_or_expunge in H1. apply orb_true_iff in H1 as [H1|H1];
      apply String.eqb_eq in H1; [left|right]; by exists y.
  - intros [(y & Hy & Hc & Hu)|(y & Hy & Hc & Hu)]; exists y;
      rewrite <- list_elem_of_In; (split; [done|]);
      apply andb_true_iff; rewrite Z.eqb_eq; (split; [|done]);
      unfold is_exists_or_expunge; rewrite Hc; reflexivity.
Qed.

(** Turns membership facts and existentials into propositional atoms. *)
Ltac prop_atoms :=
  repeat match goal with
         | |- context [?a ∈ ?X] =>
             let P := fresh "P" in set (P := a ∈ X) in *; clearbody P
         | |- context [ex ?f] =>
             let P := fresh "Q" in set (P := ex f) in *; clearbody P
         | |- context [@eq ?T ?a ?b] =>
             let P := fresh "R" in set (P := @eq T a b) in *; clearbody P
         end.

(** After the second loop has scanned [q], a UID is in [fetches], [added] or
    [removed] exactly when [q] holds a FETCH for it or it is in [added] or
    [removed]. *)
Lemma filter_fetches_seen added removed q w :
  (w ∈ (filter_fetches added removed q).1 \/ w ∈ added \/ w ∈ removed) <->
  ((exists y, y ∈ q /\ command y = "FETCH" /\ uid y = w) \/ w ∈ added \/ w ∈ removed).
Proof.
  induction q as [|x q IH]; simpl.
  - split; [intros [H|H]; [by apply not_elem_of_empty in H|by right]
           |intros [(y & Hy & _)|H]; [by apply elem_of_nil in Hy|by right]].
  - destruct (filter_fetches added removed q) as [fs r]. simpl in IH.
    assert (Hcons : (exists y, y ∈ x :: q /\ command y = "FETCH" /\ uid y = w) <->
                    (command x = "FETCH" /\ uid x = w) \/
                    (exists y, y ∈ q /\ command y = "FETCH" /\ uid y = w)).
    { split.
      - intros (y & Hy & Hc & Hu). apply elem_of_cons in Hy as [->|Hy];
          [by left | right; by exists y].
      - intros [[Hc Hu]|(y & Hy & Hc & Hu)];
          [exists x; split; [left|done] | exists y; split; [by right|done]]. }
    rewrite Hcons. clear Hcons.
    destruct (String.eqb_spec (command x) "FETCH") as [Hc|Hc].
    + destruct (bool_decide (uid x ∈ fs) || bool_decide (uid x ∈ added)
                || bool_decide (uid x ∈ removed)) eqn:Hb; simpl.
      * rewrite !orb_true_iff, !bool_decide_eq_true in Hb.
        destruct (decide (uid x = w)) as [E|E].
        -- rewrite E in Hb. clear -Hb IH Hc E. prop_atoms. naive_solver.
        -- clear -IH E. prop_atoms. naive_solver.
      * rewrite elem_of_union, elem_of_singleton.
        destruct (decide (uid x = w)) as [E|E].
        -- assert (E' : w = uid x) by done. clear -IH Hc E E'. prop_atoms. naive_solver.
        -- assert (E' : w ≠ uid x) by done. clear -IH E E'. prop_atoms. naive_solver.
    + simpl. clear -IH Hc. prop_atoms. naive_solver.
Qed.

(** The second loop computes what the specification words. *)
Lemma filter_fetches_refines all q :
  (filter_fetches (collect all).1 (collect all).2 q).2 = coalesce_spec all q.
Proof.
  induction q as [|x q IH]; simpl; [done|].
  pose proof (filter_fetches_seen (collect all).1 (collect all).2 q (uid x)) as Hseen.
  destruct (filter_fetches (collect all).1 (collect all).2 q) as [fs r].
  simpl in IH, Hseen. fold (is_fetch x).
  assert (Hb : bool_decide (uid x ∈ fs) || bool_decide (uid x ∈ (collect all).1)
               || bool_decide (uid x ∈ (collect all).2) =
               existsb (fun y => is_fetch y && (uid y =? uid x)) q ||
               existsb (fun y => is_exists_or_expunge y && (uid y =? uid x)) all).
  { apply Bool.eq_iff_eq_true.
    rewrite !orb_true_iff, !bool_decide_eq_true, existsb_later_fetch,
      existsb_added_or_removed. clear -Hseen. prop_atoms. naive_solver. }
  rewrite Hb. subst r. destruct (is_fetch x); simpl; [|done].
  destruct (existsb _ q || existsb _ all); reflexivity.
Qed.

(** Among the survivors there is at most one FETCH record per UID. *)
Lemma filter_fetches_NoDup added removed q :
  NoDup (uid <$> List.filter is_fetch (filter_fetches added removed q).2) /\
  (forall x, x ∈ (filter_fetches added removed q).2 -> command x = "FETCH" ->
             uid x ∈ (filter_fetches added removed q).1).
Proof.
  induction q as [|x q [IH1 IH2]]; simpl.
  - split; [constructor | intros x Hx; by apply elem_of_nil in Hx].
  - destruct (filter_fetches added removed q) as [fs r]. simpl in *.
    destruct (String.eqb_spec (command x) "FETCH") as [Hc|Hc].
    + destruct (bool_decide (uid x ∈ fs) || bool_decide (uid x ∈ added)
                || bool_decide (uid x ∈ removed)) eqn:Hb; simpl; [done|].
      rewrite !orb_false_iff, !bool_decide_eq_false in Hb.
      destruct Hb as [[Hfs _] _].
      assert (Hf : is_fetch x = true) by (by apply is_fetch_true).
      rewrite Hf. simpl. split.
      * constructor; [|done]. intros Hin. apply Hfs.
        apply list_elem_of_fmap in Hin as (y & -> & Hy).
        rewrite list_elem_of_In, List.filter_In in Hy. destruct Hy as [Hy Hfy].
        apply IH2; [by apply list_elem_of_In | by apply is_fetch_true].
      * intros y Hy Hcy. rewrite elem_of_union, elem_of_singleton.
        apply elem_of_cons in Hy as [->|Hy]; [by left | right; by apply IH2].
    + simpl. assert (Hf : is_fetch x = false).
      { unfold is_fetch. by apply String.eqb_neq. }
      rewrite Hf. split; [done|].
      intros y Hy Hcy. apply elem_of_cons in Hy as [->|Hy]; [done|by apply IH2].
Qed.

(** A surviving FETCH record is the last FETCH of the queue for its UID, and
    the queue holds no EXISTS and no EXPUNGE for that UID. *)
Lemma filter_fetches_last added removed q x :
  x ∈ (filter_fetches added removed q).2 -> command x = "FETCH" ->
  (uid x ∉ added) /\ (uid x ∉ removed) /\
  exists pre post, q = pre ++ x :: post /\
    forall y, y ∈ post -> command y = "FETCH" -> uid y ≠ uid x.
Proof.
  induction q as [|z q IH]; simpl; intros Hx Hc.
  - by apply elem_of_nil in Hx.
  - pose proof (filter_fetches_seen added removed q (uid z)) as Hseen.
    destruct (filter_fetches added removed q) as [fs r]. simpl in *.
    assert (Hold : x ∈ r -> (uid x ∉ added) /\ (uid x ∉ removed) /\
              exists pre post, z :: q = pre ++ x :: post /\
                forall y, y ∈ post -> command y = "FETCH" -> uid y ≠ uid x).
    { intros Hr. destruct (IH Hr Hc) as (Ha & Hr' & pre & post & -> & Hp).
      split; [done|]. split; [done|]. by exists (z :: pre), post. }
    destruct (String.eqb_spec (command z) "FETCH") as [Hz|Hz].
    + destruct (bool_decide (uid z ∈ fs) || bool_decide (uid z ∈ added)
                || bool_decide (uid z ∈ removed)) eqn:Hb; simpl in Hx; [by apply Hold|].
      apply elem_of_cons in Hx as [->|Hx]; [|by apply Hold].
      rewrite !orb_false_iff, !bool_decide_eq_false in Hb.
      destruct Hb as [[Hfs Ha] Hr].
      split; [done|]. split; [done|]. exists [], q. split; [done|].
      intros y Hy Hcy E. assert (H' : uid z ∈ fs \/ uid z ∈ added \/ uid z ∈ removed).
      { apply Hseen. left. by exists y. }
      tauto.
    + simpl in Hx. apply elem_of_cons in Hx as [->|Hx]; [done|by apply Hold].
Qed.

Lemma filter_fetches_sublist added removed q :
  (filter_fetches added removed q).2 `sublist_of` q.
Proof.
  induction q as [|x q IH]; simpl; [constructor|].
  destruct (filter_fetches added removed q) as [fs r]. simpl in IH.
  destruct (String.eqb (command x) "FETCH"); [destruct (_ || _)|]; simpl;
    by constructor.
Qed.

(** ** The second loop of the flush *)

(** X1: The right-to-left splice loop of [emitNotifications] keeps, in order,
    exactly the records that the two-condition filter keeps: a FETCH record is
    removed if and only if a later record of the queue is a FETCH for the same
    UID or some record of the queue is an EXISTS or an EXPUNGE for that UID. *)
Theorem second_loop_refines_coalesce (q : list update) :
  survivors q = coalesce_spec q q.
Proof. apply filter_fetches_refines. Qed.

(** X2: The survivors of the second loop are a subsequence of the queue (the
    order of arrival is kept), every record that is not a FETCH survives, and
    no two surviving FETCH records have the same UID. *)
Theorem survivors_one_fetch_per_uid (q : list update) :
  survivors q `sublist_of` q /\
  List.filter (fun x => negb (is_fetch x)) (survivors q) =
    List.filter (fun x => negb (is_fetch x)) q /\
  NoDup (uid <$> List.filter is_fetch (survivors q)).
Proof.
  split; [apply filter_fetches_sublist|].
  split; [|apply filter_fetches_NoDup].
  unfold survivors. generalize (collect q).1 (collect q).2. intros added removed.
  induction q as [|x q IH]; simpl; [done|].
  destruct (filter_fetches added removed q) as [fs r]. simpl in IH.
  fold (is_fetch x). destruct (is_fetch x) eqn:Hf; simpl.
  - destruct (_ || _); simpl; rewrite ?Hf; simpl; exact IH.
  - rewrite Hf. simpl. by rewrite IH.
Qed.

(** X3: A FETCH record that survives the second loop is the last FETCH of the
    queue for its UID, and the queue holds neither an EXISTS nor an EXPUNGE
    record for that UID. *)
Theorem surviving_fetch_is_last (q : list update) (x : update) :
  x ∈ survivors q -> command x = "FETCH" ->
  (forall y, y ∈ q -> uid y = uid x -> command y ≠ "EXISTS" /\ command y ≠ "EXPUNGE") /\
  exists pre post, q = pre ++ x :: post /\
    forall y, y ∈ post -> command y = "FETCH" -> uid y ≠ uid x.
Proof.
  intros Hx Hc.
  destruct (filter_fetches_last _ _ _ _ Hx Hc) as (Ha & Hr & Hlast).
  split; [|exact Hlast].
  intros y Hy Hu. split; intros Hcy.
  - apply Ha. apply elem_of_added. by exists y.
  - apply Hr. apply elem_of_removed. by exists y.
Qed.

Lemma surviving_fetch_is_last_witness :
  let x1 := upd "FETCH" 10 1 in
  let x2 := upd "FETCH" 10 2 in
  let x3 := upd "EXISTS" 11 3 in
  exists pre post, [x1; x2; x3] = pre ++ x2 :: post /\
    forall y, y ∈ post -> command y = "FETCH" -> uid y ≠ uid x2.
Proof.
  intros x1 x2 x3.
  assert (Hx : x2 ∈ survivors [x1; x2; x3]) by (vm_compute; left).
  exact (proj2 (surviving_fetch_is_last [x1; x2; x3] x2 Hx eq_refl)).
Defined.

(** ** FETCH responses of a flush *)

Lemma formatResponse_condstoreEnabled cmd u data s :
  condstoreEnabled (formatResponse cmd u data s).2 = condstoreEnabled s.
Proof.
  unfold formatResponse.
  destruct (String.eqb _ "EXISTS"); [done|].
  destruct (_ <? 0); [done|]. simpl. by destruct (String.eqb _ "EXPUNGE").
Qed.

Lemma fetch_responses_app e1 e2 :
  fetch_responses (e1 ++ e2) = fetch_responses e1 ++ fetch_responses e2.
Proof. unfold fetch_responses. by rewrite responses_app, List.filter_app. Qed.

(** One iteration of the third loop: the flag [condstoreEnabled] is kept, and
    a FETCH response is written only for a FETCH record that is not
    echo-suppressed and whose UID is listed; it is the response for the
    [uidList] the iteration starts with. *)
Lemma walk_body_fetch_responses sid skip st x :
  condstoreEnabled (w_sel (walk_body sid skip st x).1) = condstoreEnabled (w_sel st) /\
  (fetch_responses (walk_body sid skip st x).2 = [] \/
   (is_fetch x && negb (ignored sid x) = true /\
    uid x ∈ uidList (w_sel st) /\
    fetch_responses (walk_body sid skip st x).2 =
      [fetch_response_for (uidList (w_sel st)) (condstoreEnabled (w_sel st)) x])).
Proof.
  unfold walk_body.
  destruct (bool_decide _); [by split; [|left]|].
  destruct (ignored sid x) eqn:Hig;
    [split; [apply advance_condstoreEnabled | by left]|].
  destruct (String.eqb (command x) "EXISTS") eqn:He.
  { rewrite formatResponse_EXISTS. simpl.
    split; [apply advance_condstoreEnabled | by left]. }
  destruct (String.eqb (command x) "EXPUNGE") eqn:Hx.
  { destruct (_ >=? 0); [|split; [apply advance_condstoreEnabled | by left]].
    rewrite formatResponse_EXPUNGE.
    destruct (_ <? 0); simpl; (split; [apply advance_condstoreEnabled | by left]). }
  destruct (String.eqb (command x) "FETCH") eqn:Hf;
    [|split; [apply advance_condstoreEnabled | by left]].
  rewrite formatResponse_FETCH. rewrite advance_uidList.
  destruct (Z.ltb_spec (indexOf (uidList (w_sel st)) (uid x)) 0)
    as [Hlt|Hge]; simpl; (split; [apply advance_condstoreEnabled|]); [by left|].
  right. split; [unfold is_fetch; by rewrite Hf|]. split.
  - destruct (decide (uid x ∈ uidList (w_sel st))) as [|Hn];
      [done|]. apply indexOf_absent in Hn. lia.
  - unfold fetch_response_for. by rewrite advance_condstoreEnabled.
Qed.

Lemma walk_fetch_responses sid skip q : forall st,
  exists xs,
    xs `sublist_of` List.filter (fun x => is_fetch x && negb (ignored sid x)) q /\
    Forall2 (fun x r => exists pre post,
               q = pre ++ x :: post /\
               uid x ∈ uidList (w_sel (walk sid skip st pre).1) /\
               r = fetch_response_for (uidList (w_sel (walk sid skip st pre).1))
                     (condstoreEnabled (w_sel st)) x)
      xs (fetch_responses (walk sid skip st q).2).
Proof.
  induction q as [|x q IH]; intros st; simpl.
  - exists []. split; constructor.
  - destruct (walk_body_fetch_responses sid skip st x) as [Hcs Hb].
    destruct (IH (walk_body sid skip st x).1) as (xs & Hsub & Hall).
    rewrite Hcs in Hall.
    assert (Hall' : Forall2 (fun y r => exists pre post,
               x :: q = pre ++ y :: post /\
               uid y ∈ uidList (w_sel (walk sid skip st pre).1) /\
               r = fetch_response_for (uidList (w_sel (walk sid skip st pre).1))
                     (condstoreEnabled (w_sel st)) y)
              xs (fetch_responses (walk sid skip (walk_body sid skip st x).1 q).2)).
    { eapply Forall2_impl; [exact Hall|].
      intros y r (pre & post & -> & Hin & ->).
      exists (x :: pre), post. simpl.
      destruct (walk_body sid skip st x) as [st1 e1]. simpl in *.
      by destruct (walk sid skip st1 pre). }
    clear Hall.
    destruct (walk_body sid skip st x) as [st1 e1]. simpl in Hb, Hsub, Hall'.
    destruct (walk sid skip st1 q) as [st2 e2]. simpl in *.
    rewrite fetch_responses_app.
    destruct Hb as [->|(Hf & Hl & ->)]; simpl.
    + exists xs. split; [|done].
      destruct (is_fetch x && negb (ignored sid x)); [by constructor|done].
    + exists (x :: xs). rewrite Hf. split; [by constructor|].
      constructor; [|done]. by exists [], q.
Qed.

(** ** The EXISTS response of a flush *)

Lemma exists_inv_response l0 st :
  exists_inv l0 st ->
  existsResponse st = None \/ exists n, existsResponse st = Some (untagged n "EXISTS").
Proof. intros [[_ H]|[[_ H]|(_ & H & _)]]; eauto. Qed.

Lemma walk_body_exists_inv sid skip l0 st x :
  exists_inv l0 st ->
  exists_inv l0 (walk_body sid skip st x).1 /\
  Forall not_exists_response (written (walk_body sid skip st x).2).
Proof.
  intros Hinv. pose proof (exists_inv_response l0 st Hinv) as Hresp.
  assert (Hkeep : forall s, uidList s = uidList (w_sel st) ->
            exists_inv l0 {| w_sel := s; changed := changed st;
                             existsResponse := existsResponse st |}).
  { intros s Hs. unfold exists_inv in *. simpl. by rewrite Hs. }
  unfold walk_body.
  destruct (bool_decide _); [split; [done|constructor]|].
  destruct (ignored sid x);
    [split; [apply Hkeep, advance_uidList | repeat constructor]|].
  destruct (String.eqb (command x) "EXISTS").
  { rewrite formatResponse_EXISTS. simpl. split; [|constructor].
    right; left. simpl. by rewrite mk_response_plain. }
  destruct (String.eqb (command x) "EXPUNGE").
  { destruct (_ >=? 0);
      [|split; [apply Hkeep, advance_uidList | repeat constructor]].
    rewrite formatResponse_EXPUNGE.
    destruct (_ <? 0); simpl; (split; [by left | repeat constructor]). }
  destruct (String.eqb (command x) "FETCH");
    [|split; [apply Hkeep, advance_uidList | repeat constructor]].
  rewrite formatResponse_FETCH.
  destruct (_ <? 0); simpl;
    (split; [apply Hkeep; simpl; apply advance_uidList | repeat constructor]).
Qed.

Lemma walk_exists_inv sid skip l0 q : forall st,
  exists_inv l0 st ->
  exists_inv l0 (walk sid skip st q).1 /\
  Forall not_exists_response (written (walk sid skip st q).2).
Proof.
  induction q as [|x q IH]; intros st Hinv; simpl; [split; [done|constructor]|].
  destruct (walk_body_exists_inv sid skip l0 st x Hinv) as [H1 H2].
  destruct (walk_body sid skip st x) as [st1 e1]. simpl in *.
  destruct (IH st1 H1) as [H3 H4].
  destruct (walk sid skip st1 q) as [st2 e2]. simpl in *.
  split; [done|]. rewrite written_app. by apply Forall_app.
Qed.

(** X5: Every flush writes at most one EXISTS response, as the last object, and
    its number is the final length of [uidList]; it is left out only when
    [uidList] is the same list as before the flush.  The objects written
    before it are the EXPUNGE and FETCH responses of the third loop. *)
Theorem flush_ends_with_exists_count (sid : string) (notify : bool) (sel : selected_t) :
  let r := flush sid notify sel in
  exists w,
    Forall not_exists_response w /\
    (written r.2 =
       w ++ [Some (untagged (String_of (Z.of_nat (length (uidList r.1)))) "EXISTS")] \/
     (written r.2 = w /\ uidList r.1 = uidList sel)).
Proof.
  intros r. subst r. rewrite flush_unfold. cbv zeta.
  match goal with |- context [walk ?a ?b ?st ?q] =>
    destruct (walk_exists_inv a b (uidList sel) q st) as [Hinv Hw];
    [right; right; done|];
    destruct (walk a b st q) as [st' ev] end.
  cbn [fst snd uidList set_notifications] in *.
  exists (written ev). split; [done|].
  assert (Hn : forall e : list event,
            written (EvLog "info" "notifications" "[%s] Pending notifications: %s"
                     :: ev ++ e ++
                     (if notify
                      then [EvOnNotifications (mailbox (w_sel st')) (modifyIndex (w_sel st'))]
                      else [])) = written ev ++ written e).
  { intros e. change (EvLog ?a ?b ?c :: ?l) with ([EvLog a b c] ++ l).
    rewrite !written_app. simpl. destruct notify; simpl; by rewrite app_nil_r. }
  rewrite Hn. unfold exists_tail.
  destruct Hinv as [[Hc Hr]|[[Hc Hr]|(Hc & Hr & Hl)]]; rewrite Hc.
  - left. destruct Hr as [->|[n ->]]; reflexivity.
  - left. rewrite Hr. reflexivity.
  - right. rewrite Hr. simpl. by rewrite app_nil_r.
Qed.

Lemma exists_tail_no_fetch l0 st :
  exists_inv l0 st -> fetch_responses (exists_tail st) = [].
Proof.
  intros Hinv. unfold exists_tail.
  destruct (exists_inv_response l0 st Hinv) as [->|[n ->]];
    destruct (changed st); reflexivity.
Qed.

Lemma filter_not_ignored_sublist sid (l : list update) :
  List.filter (fun x => is_fetch x && negb (ignored sid x)) l
    `sublist_of` List.filter is_fetch l.
Proof.
  induction l as [|x l IH]; simpl; [constructor|].
  destruct (is_fetch x); simpl; [|done].
  destruct (negb (ignored sid x)); by constructor.
Qed.

(** X4: The FETCH responses of a flush, in the order written, stem from
    distinct surviving FETCH records that are not echo-suppressed, taken in
    queue order: each response carries the flags of its record (and its MODSEQ
    when CONDSTORE is enabled) and is numbered with the 1-based position that
    the record's UID has in [uidList] at the moment the third loop reaches the
    record, that is, after the records before it have been processed.  No UID
    gets two FETCH responses. *)
Theorem fetch_responses_from_survivors (sid : string) (notify : bool) (sel : selected_t) :
  exists xs,
    xs `sublist_of` List.filter (fun x => is_fetch x && negb (ignored sid x))
                      (survivors (notifications sel)) /\
    NoDup (uid <$> xs) /\
    Forall2 (fun x r => exists pre post,
               survivors (notifications sel) = pre ++ x :: post /\
               uid x ∈ uidList_after sid sel pre /\
               r = fetch_response_for (uidList_after sid sel pre)
                     (condstoreEnabled sel) x)
      xs (fetch_responses (flush sid notify sel).2).
Proof.
  rewrite flush_unfold. cbv zeta. unfold uidList_after.
  match goal with |- context [walk ?a ?b ?st (survivors ?q)] =>
    destruct (walk_fetch_responses a b (survivors q) st) as (xs & Hsub & Hall);
    destruct (walk_exists_inv a b (uidList sel) (survivors q) st) as [Hinv _];
    [right; right; done|] end.
  exists xs. split; [done|]. split.
  - eapply sublist_NoDup;
      [apply (proj1 (filter_fetches_NoDup (collect (notifications sel)).1
                       (collect (notifications sel)).2 (notifications sel)))|].
    apply fmap_sublist. etrans; [exact Hsub|].
    apply filter_not_ignored_sublist.
  - cbn [snd]. change (EvLog ?a ?b ?c :: ?l) with ([EvLog a b c] ++ l).
    rewrite !fetch_responses_app, (exists_tail_no_fetch _ _ Hinv).
    destruct notify; simpl; rewrite !app_nil_r; exact Hall.
Qed.

(** ** Flushing twice, echo suppression and the cursor *)

Lemma flush_clears_queue sid notify sel : notifications (flush sid notify sel).1 = [].
Proof. by rewrite flush_unfold. Qed.

(** X7: A flush empties the pending queue, so a second [emitNotifications] right
    after the first one finds nothing to do: it performs no effect and leaves
    the connection as the first call left it. *)
Theorem emitNotifications_twice (c : connection) :
  emitNotifications (emitNotifications c).1 = ((emitNotifications c).1, []) /\
  (state c = "Selected" ->
   notifications <$> selected (emitNotifications c).1 = (fun _ => []) <$> selected c).
Proof.
  assert (Hnoop : forall H, emitNotifications c = (c, []) ->
            (emitNotifications (emitNotifications c).1 = ((emitNotifications c).1, []) /\
             (H -> selected (emitNotifications c).1 = selected c))).
  { intros H E. by rewrite !E. }
  destruct (String.eqb_spec (state c) "Selected") as [Hs|Hs].
  2:{ split; [|done]. apply (Hnoop True). apply emitNotifications_noop. by left. }
  destruct (selected c) as [sel|] eqn:Hsel.
  2:{ assert (E : emitNotifications c = (c, [])).
      { apply emitNotifications_noop. by right; left. }
      rewrite !E. simpl. by rewrite Hsel. }
  destruct (notifications sel) as [|x q] eqn:Hq.
  { assert (E : emitNotifications c = (c, [])).
    { apply emitNotifications_noop. right; right. by exists sel. }
    rewrite !E. simpl. rewrite Hsel. simpl. by rewrite Hq. }
  assert (Hq' : notifications sel ≠ []) by (by rewrite Hq).
  rewrite (emitNotifications_flush c sel Hs Hsel Hq'). simpl.
  pose proof (flush_clears_queue (id c) (has_onNotifications (_server c)) sel) as Hcl.
  split; [|by rewrite Hcl].
  apply emitNotifications_noop. right; right. by eexists.
Qed.

Lemma walk_body_ignored sid skip st x :
  ignored sid x = true ->
  written (walk_body sid skip st x).2 = [] /\
  uidList (w_sel (walk_body sid skip st x).1) = uidList (w_sel st) /\
  changed (walk_body sid skip st x).1 = changed st /\
  existsResponse (walk_body sid skip st x).1 = existsResponse st.
Proof.
  intros Hig. unfold walk_body. destruct (bool_decide _); [done|].
  rewrite Hig. simpl. by rewrite advance_uidList.
Qed.

Lemma walk_ignored sid skip q : forall st,
  Forall (fun x => ignored sid x = true) q ->
  written (walk sid skip st q).2 = [] /\
  uidList (w_sel (walk sid skip st q).1) = uidList (w_sel st) /\
  changed (walk sid skip st q).1 = changed st /\
  existsResponse (walk sid skip st q).1 = existsResponse st.
Proof.
  induction q as [|x q IH]; intros st Hall; simpl; [done|].
  apply Forall_cons in Hall as [Hx Hall].
  destruct (walk_body_ignored sid skip st x Hx) as (B1 & B2 & B3 & B4).
  destruct (walk_body sid skip st x) as [st1 e1]. simpl in *.
  destruct (IH st1 Hall) as (W1 & W2 & W3 & W4).
  destruct (walk sid skip st1 q) as [st2 e2]. simpl in *.
  rewrite written_app, B1, W1. repeat split; congruence.
Qed.

(** The third loop moves the cursor past every record it does not skip,
    before it looks at [ignore]. *)
Lemma walk_body_covers sid skip st x :
  uid x ∉ skip -> modseq x <= modifyIndex (w_sel (walk_body sid skip st x).1).
Proof.
  intros Hs. unfold walk_body. rewrite bool_decide_eq_false_2 by done.
  assert (Hadv : modseq x <= modifyIndex (advance (modseq x) (w_sel st))).
  { rewrite advance_modifyIndex. lia. }
  destruct (ignored sid x); [done|].
  destruct (String.eqb (command x) "EXISTS").
  { rewrite formatResponse_EXISTS. done. }
  destruct (String.eqb (command x) "EXPUNGE").
  { destruct (_ >=? 0); [|done]. rewrite formatResponse_EXPUNGE.
    by destruct (_ <? 0). }
  destruct (String.eqb (command x) "FETCH"); [|done].
  rewrite formatResponse_FETCH. by destruct (_ <? 0).
Qed.

Lemma walk_covers sid skip q : forall st x,
  x ∈ q -> uid x ∉ skip -> modseq x <= modifyIndex (w_sel (walk sid skip st q).1).
Proof.
  induction q as [|y q IH]; intros st x Hx Hs; simpl.
  - by apply elem_of_nil in Hx.
  - pose proof (walk_body_covers sid skip st y) as Hb.
    destruct (walk_body sid skip st y) as [st1 e1].
    pose proof (walk_modifyIndex_le sid skip q st1) as Hm.
    specialize (IH st1 x). destruct (walk sid skip st1 q) as [st2 e2].
    simpl in *. apply elem_of_cons in Hx as [->|Hx].
    + specialize (Hb Hs). lia.
    + by apply IH.
Qed.

(** X8: After a flush, [modifyIndex] is at least the [modseq] of every record
    that survived the second loop and whose UID is not both added and removed
    in that flush, also when the record is echo-suppressed or names a UID that
    is not listed: the cursor is moved before [ignore] is looked at. *)
Theorem flush_cursor_covers (sid : string) (notify : bool) (sel : selected_t)
    (x : update) :
  x ∈ survivors (notifications sel) ->
  uid x ∉ skip_of (notifications sel) ->
  modseq x <= modifyIndex (flush sid notify sel).1.
Proof.
  intros Hx Hs. rewrite flush_unfold. cbn [fst modifyIndex set_notifications].
  by apply walk_covers.
Qed.

Lemma flush_cursor_covers_witness :
  let x := {| command := "FETCH"; uid := 10; modseq := 9; flags := None;
              ignore := Some "S" |} in
  9 <= modifyIndex (flush "S" false (mk_selected [10] [x])).1.
Proof.
  intros x.
  apply (flush_cursor_covers "S" false (mk_selected [10] [x]) x).
  - vm_compute. left.
  - vm_compute. intros H. inversion H.
Defined.

(** X9: A flush in which every surviving record is echo-suppressed (its [ignore]
    is the session id) writes nothing and leaves [uidList] as it was. *)
Theorem echo_suppressed_flush_is_silent (sid : string) (notify : bool) (sel : selected_t) :
  Forall (fun x => ignore x = Some sid) (survivors (notifications sel)) ->
  written (flush sid notify sel).2 = [] /\
  uidList (flush sid notify sel).1 = uidList sel.
Proof.
  intros Hall. rewrite flush_unfold. cbv zeta.
  assert (Hall' : Forall (fun x => ignored sid x = true) (survivors (notifications sel))).
  { eapply Forall_impl; [exact Hall|]. intros x Hx. unfold ignored. rewrite Hx.
    apply String.eqb_refl. }
  match goal with |- context [walk ?a ?b ?st ?q] =>
    destruct (walk_ignored a b q st Hall') as (W1 & W2 & W3 & W4);
    destruct (walk a b st q) as [st' ev] end.
  cbn [fst snd uidList set_notifications w_sel changed existsResponse] in *.
  split; [|done].
  change (EvLog ?a ?b ?c :: ?l) with ([EvLog a b c] ++ l).
  rewrite !written_app, W1. unfold exists_tail. rewrite W3, W4. simpl.
  by destruct notify.
Qed.

Lemma echo_suppressed_flush_is_silent_witness :
  let x := {| command := "EXPUNGE"; uid := 10; modseq := 9; flags := None;
              ignore := Some "S" |} in
  written (flush "S" true (mk_selected [10; 11] [x])).2 = [] /\
  uidList (flush "S" true (mk_selected [10; 11] [x])).1 = [10; 11].
Proof.
  intros x.
  apply (echo_suppressed_flush_is_silent "S" true (mk_selected [10; 11] [x])).
  vm_compute. repeat constructor.
Defined.

(** ** Sequence numbers of formatResponse *)

Lemma upper_ascii_idem (a : ascii) : upper_ascii (upper_ascii a) = upper_ascii a.
Proof. destruct a as [[] [] [] [] [] [] [] []]; reflexivity. Qed.

Lemma toUpperCase_idem (s : string) : toUpperCase (toUpperCase s) = toUpperCase s.
Proof.
  induction s as [|a s IH]; simpl; [done|]. by rewrite upper_ascii_idem, IH.
Qed.

(** X10: The command name is matched without regard to case, and the response
    always carries the upper-case name: [formatResponse] gives the same result
    for a name and for its upper-case form. *)
Theorem formatResponse_case_insensitive cmd u data s :
  formatResponse cmd u data s = formatResponse (toUpperCase cmd) u data s.
Proof. unfold formatResponse. by rewrite toUpperCase_idem. Qed.

Lemma indexOf_first (l : list Z) (u : Z) (j : nat) :
  (Z.of_nat j < indexOf l u) -> l !! j ≠ Some u.
Proof.
  revert j. induction l as [|x l IH]; intros j Hj; simpl in *; [done|].
  destruct (Z.eqb_spec x u) as [->|Hne]; [lia|].
  destruct (Z.ltb_spec (indexOf l u) 0); [lia|].
  destruct j as [|j]; simpl; [congruence|]. apply IH. lia.
Qed.

Lemma indexOf_app_fresh (l : list Z) (u : Z) :
  u ∉ l -> indexOf (l ++ [u]) u = Z.of_nat (length l).
Proof.
  induction l as [|x l IH]; intros Hu; simpl.
  - by rewrite Z.eqb_refl.
  - apply not_elem_of_cons in Hu as [Hne Hu].
    destruct (Z.eqb_spec x u); [congruence|]. rewrite (IH Hu).
    destruct (Z.ltb_spec (Z.of_nat (length l)) 0); lia.
Qed.

(** X11: For a command other than EXISTS, a response is produced only for a listed
    UID, and its sequence number is the 1-based position of the first
    occurrence of the UID in [uidList].  EXPUNGE removes exactly that entry;
    any other command leaves [uidList] alone. *)
Theorem formatResponse_first_position cmd u data s r s' :
  toUpperCase cmd ≠ "EXISTS" ->
  formatResponse cmd u data s = (Some r, s') ->
  exists i : nat,
    uidList s !! i = Some u /\
    (forall j, (j < i)%nat -> uidList s !! j ≠ Some u) /\
    rcommand r = String_of (Z.of_nat i + 1) /\
    uidList s' = (if String.eqb (toUpperCase cmd) "EXPUNGE"
                  then delete i (uidList s) else uidList s).
Proof.
  intros Hc. unfold formatResponse.
  destruct (String.eqb_spec (toUpperCase cmd) "EXISTS"); [done|].
  destruct (Z.ltb_spec (indexOf (uidList s) u) 0) as [Hlt|Hge]; [done|].
  intros E. injection E as <- <-.
  assert (Hin : u ∈ uidList s).
  { destruct (decide (u ∈ uidList s)) as [|Hn]; [done|].
    apply indexOf_absent in Hn. lia. }
  destruct (indexOf_present _ _ Hin) as [_ Hl].
  exists (Z.to_nat (indexOf (uidList s) u)).
  split; [done|]. split.
  { intros j Hj. apply indexOf_first. lia. }
  split.
  { simpl. f_equal. lia. }
  destruct (String.eqb (toUpperCase cmd) "EXPUNGE"); [|done].
  simpl. unfold splice1. f_equal. lia.
Qed.

Lemma formatResponse_first_position_witness :
  exists i : nat,
    [10; 11; 12] !! i = Some 11 /\
    (forall j, (j < i)%nat -> [10; 11; 12] !! j ≠ Some 11) /\
    rcommand (untagged "2" "EXPUNGE") = String_of (Z.of_nat i + 1) /\
    uidList (mk_selected [10; 12] []) =
      (if String.eqb (toUpperCase "expunge") "EXPUNGE"
       then delete i [10; 11; 12] else [10; 11; 12]).
Proof.
  refine (formatResponse_first_position "expunge" 11 None
            (mk_selected [10; 11; 12] []) _ _ _ _).
  - vm_compute. discriminate.
  - vm_compute. reflexivity.
Defined.

(** X12: Appending a new UID with EXISTS and expunging it again restores the
    selected mailbox; the EXISTS response is numbered with the new length and
    the EXPUNGE response with that same number. *)
Theorem exists_then_expunge_restores u data s :
  u ∉ uidList s ->
  let n := Z.of_nat (length (uidList s)) + 1 in
  formatResponse "EXISTS" u data s =
    (Some (mk_response n "EXISTS" data), set_uidList (uidList s ++ [u]) s) /\
  formatResponse "EXPUNGE" u None (set_uidList (uidList s ++ [u]) s) =
    (Some (untagged (String_of n) "EXPUNGE"), s).
Proof.
  intros Hu n. subst n. split.
  { rewrite formatResponse_EXISTS. do 3 f_equal. rewrite length_app. simpl. lia. }
  rewrite formatResponse_EXPUNGE. cbn [uidList set_uidList].
  rewrite (indexOf_app_fresh _ _ Hu).
  destruct (Z.ltb_spec (Z.of_nat (length (uidList s))) 0); [lia|].
  rewrite mk_response_plain. f_equal.
  unfold splice1.
  replace (Z.to_nat (Z.of_nat (length (uidList s)) + 1 - 1)) with (length (uidList s))
    by lia.
  rewrite delete_middle, app_nil_r. by destruct s.
Qed.

Lemma exists_then_expunge_restores_witness :
  formatResponse "EXPUNGE" 12 None (set_uidList ([10; 11] ++ [12]) (mk_selected [10; 11] []))
  = (Some (untagged "3" "EXPUNGE"), mk_selected [10; 11] []).
Proof.
  assert (Hu : (12 : Z) ∉ uidList (mk_selected [10; 11] [])).
  { simpl. rewrite !not_elem_of_cons. repeat split; try discriminate.
    apply not_elem_of_nil. }
  exact (proj2 (exists_then_expunge_restores 12 None (mk_selected [10; 11] []) Hu)).
Defined.

(** ** What no entry point undoes *)

Lemma sent_app e1 e2 : sent (e1 ++ e2) = sent e1 ++ sent e2.
Proof. unfold sent. apply omap_app. Qed.

Lemma kept_refl c : kept c c [].
Proof. unfold kept. repeat split; done. Qed.

Lemma kept_trans c c1 c2 e1 e2 :
  kept c c1 e1 -> kept c1 c2 e2 -> kept c c2 (e1 ++ e2).
Proof.
  intros (A1 & A2 & A3 & A4) (B1 & B2 & B3 & B4). unfold kept.
  split; [congruence|]. split; [set_solver|]. split.
  - intros H. destruct (A3 H) as [H1 H2]. destruct (B3 H1) as [H3 H4].
    split; congruence.
  - intros H. destruct (A4 H) as [H1 H2]. destruct (B4 H1) as [H3 H4].
    split; [done|]. by rewrite sent_app, H2, H4.
Qed.

(** Effects that are not writes to the socket can be added freely. *)
Lemma kept_silent c c' e e' :
  kept c c' e -> sent e' = sent e -> kept c c' e'.
Proof.
  intros (A1 & A2 & A3 & A4) He. unfold kept. repeat split; try done;
    try (by apply A3); try (by apply A4). rewrite He. by apply A4.
Qed.

Lemma send_kept p c : kept c (send p c).1 (send p c).2.
Proof.
  unfold send, kept.
  destruct (writable (_socket c)) eqn:Hw, (compression c), (_deflate c); simpl;
    repeat split; try done.
Qed.

Lemma close_kept c : kept c (close c).1 (close c).2.
Proof.
  unfold close, kept.
  destruct (negb (destroyed (_socket c)) && writable (_socket c)) eqn:Hb; simpl;
    (split; [done|]); (split; [set_solver|]); (split; [done|]); intros Hw;
    done.
Qed.

Lemma clear_kept lid c : kept c (clear lid c).1 (clear lid c).2.
Proof.
  unfold clear, kept. destruct (listeners c !! lid) as [L|]; simpl;
    repeat split; done.
Qed.

Lemma set_lock_kept lid b c : kept c (set_lock lid b c) [].
Proof.
  unfold set_lock, kept. destruct (listeners c !! lid) as [L|]; simpl;
    repeat split; done.
Qed.

Lemma walk_body_sent sid skip st x : sent (walk_body sid skip st x).2 = [].
Proof.
  unfold walk_body. destruct (bool_decide _); [done|].
  destruct (ignored sid x); [done|].
  destruct (String.eqb (command x) "EXISTS"); [by rewrite formatResponse_EXISTS|].
  destruct (String.eqb (command x) "EXPUNGE").
  { destruct (_ >=? 0); [|done]. rewrite formatResponse_EXPUNGE. by destruct (_ <? 0). }
  destruct (String.eqb (command x) "FETCH"); [|done].
  rewrite formatResponse_FETCH. by destruct (_ <? 0).
Qed.

Lemma walk_sent sid skip q : forall st, sent (walk sid skip st q).2 = [].
Proof.
  induction q as [|x q IH]; intros st; simpl; [done|].
  pose proof (walk_body_sent sid skip st x) as Hb.
  destruct (walk_body sid skip st x) as [st1 e1]. specialize (IH st1).
  destruct (walk sid skip st1 q) as [st2 e2]. simpl in *.
  by rewrite sent_app, Hb, IH.
Qed.

Lemma flush_sent sid notify sel : sent (flush sid notify sel).2 = [].
Proof.
  rewrite flush_unfold. cbv zeta. cbn [snd].
  change (EvLog ?a ?b ?c :: ?l) with ([EvLog a b c] ++ l).
  rewrite !sent_app, walk_sent. unfold exists_tail.
  destruct (existsResponse _), (changed _), notify; reflexivity.
Qed.

Lemma emitNotifications_kept c :
  kept c (emitNotifications c).1 (emitNotifications c).2.
Proof.
  unfold emitNotifications.
  destruct (negb _); [apply kept_refl|].
  destruct (selected c) as [sel|]; [|apply kept_refl].
  destruct (notifications sel); [apply kept_refl|].
  pose proof (flush_sent (id c) (has_onNotifications (_server c)) sel) as Hs.
  destruct (flush _ _ sel) as [sel' ev]. simpl in *.
  unfold kept. simpl. repeat split; done.
Qed.

Lemma _onClose_kept c : kept c (_onClose c).1 (_onClose c).2.
Proof.
  unfold _onClose. destruct (_closed c) eqn:Hc; [apply kept_refl|].
  match goal with |- context [match ?o with Some _ => _ | None => _ end] =>
    destruct o as [[lid L]|] end.
  - match goal with |- context [clear lid ?c1] =>
      pose proof (clear_kept lid c1) as (F1 & F2 & F3 & F4);
      destruct (clear lid c1) as [c2 e2] end.
    simpl in *. destruct (_closed c2); simpl; unfold kept; simpl;
      (split; [done|]); (split; [set_solver|]);
      (split; [intros ?; congruence|]);
      intros Hw; destruct (F4 Hw) as [Hw' Hs]; (split; [done|]);
      rewrite ?sent_app, ?Hs; done.
  - simpl. unfold kept. simpl.
    split; [done|]. split; [set_solver|]. split; [intros ?; congruence|]. done.
Qed.

Ltac kept_seq c1 e1 F :=
  match goal with
  | |- kept ?c (let '(_, _) := ?f in _).1 _ =>
      assert (F : kept c f.1 f.2) by auto using send_kept, close_kept,
        clear_kept, emitNotifications_kept, _onClose_kept;
      destruct f as [c1 e1]; simpl in F |- *
  end.

Lemma run_kept o c : kept c (run o c).1 (run o c).2.
Proof.
  destruct o; simpl.
  - unfold init_cb. destruct (_ || _); [apply kept_refl|].
    kept_seq c1 e1 F. eapply kept_silent; [exact F|done].
  - apply send_kept.
  - apply close_kept.
  - unfold _onEnd. destruct (_closed c) eqn:Hc.
    + eapply kept_silent; [apply kept_refl|done].
    + kept_seq c1 e1 F. eapply kept_silent; [exact F|done].
  - apply _onClose_kept.
  - unfold _onError. destruct processed; [apply kept_refl|].
    destruct (_ || _); [apply close_kept|].
    eapply kept_silent; [apply kept_refl|done].
  - unfold _onTimeout. destruct (idling c).
    + eapply kept_silent; [apply kept_refl|done].
    + kept_seq c1 e1 F. destruct (threw e1).
      { eapply kept_silent; [exact F|done]. }
      pose proof (close_kept c1) as F2.
      destruct (close c1) as [c2 e2]. simpl in *.
      eapply kept_silent; [exact (kept_trans _ _ _ _ _ F F2)|done].
  - unfold _onCommand. destruct (_upgrading c).
    + eapply kept_silent; [apply kept_refl|done].
    + destruct (_currentCommand c), (negb (final f)); simpl;
        unfold kept; simpl; repeat split; done.
  - unfold updateNotificationListener.
    destruct (match listenerData_obj c with Some _ => _ | None => _ end).
    + eapply kept_silent; [apply kept_refl|done].
    + assert (F : kept c
                (match listenerData_obj c with
                 | Some (lid, _) => clear lid c | None => (c, []) end).1
                (match listenerData_obj c with
                 | Some (lid, _) => clear lid c | None => (c, []) end).2).
      { destruct (listenerData_obj c) as [[lid L]|];
          [apply clear_kept|apply kept_refl]. }
      destruct (match listenerData_obj c with
                | Some (lid, _) => clear lid c | None => (c, []) end) as [c1 e1].
      simpl in F. destruct F as (F1 & F2 & F3 & F4).
      destruct (selected c1); simpl; unfold kept; simpl;
        (split; [done|]); (split; [done|]); (split; [exact F3|]);
        intros Hw; destruct (F4 Hw) as [? Hs]; (split; [done|]);
        rewrite ?sent_app, ?Hs; done.
  - unfold callback.
    destruct (match msg with Some _ => _ | None => _ end).
    + kept_seq c1 e1 F. destruct (threw e1); [exact F|].
      pose proof (close_kept c1) as F2.
      destruct (close c1) as [c2 e2]. simpl in *.
      exact (kept_trans _ _ _ _ _ F F2).
    + destruct (listeners c !! lid) as [L|]; [|apply kept_refl].
      destruct (negb _ && _); [apply kept_refl|].
      destruct (cleared L); [apply kept_refl|].
      destruct (if String.eqb _ _ then _ else _); [|apply clear_kept].
      eapply kept_silent; [apply set_lock_kept|done].
  - unfold getUpdates_cb.
    destruct (listeners c !! lid) as [L|]; [|apply kept_refl].
    destruct (cleared L); [apply kept_refl|].
    pose proof (set_lock_kept lid false c) as F0.
    destruct err; [eapply kept_silent; [exact F0|done]|].
    destruct (if String.eqb _ _ then _ else _) as [sel|].
    2:{ change (clear lid (set_lock lid false c)).2
          with ([] ++ (clear lid (set_lock lid false c)).2).
        eapply kept_trans; [exact F0|apply clear_kept]. }
    destruct updates as [[|u0 us]|]; try exact F0.
    match goal with |- context [set_selected ?s ?c0] =>
      assert (F1 : kept c (set_selected s c0) []) end.
    { destruct F0 as (A1 & A2 & A3 & A4). unfold kept. simpl. repeat split;
        try done; try (by apply A3); by apply A4. }
    match goal with |- context [idling ?c0] => destruct (idling c0) end;
      [|exact F1].
    match goal with |- kept _ (emitNotifications ?c0).1 _ =>
      change (emitNotifications c0).2 with ([] ++ (emitNotifications c0).2) end.
    eapply kept_trans; [exact F1|apply emitNotifications_kept].
  - apply emitNotifications_kept.
  - unfold formatResponse_conn.
    destruct (selected c);
      [|eapply kept_silent; [apply kept_refl|by destruct (String.eqb _ _)]].
    unfold kept. simpl. repeat split; done.
Qed.

Lemma exec_kept ops : forall c, kept c (exec ops c).1 (exec ops c).2.
Proof.
  induction ops as [|o ops IH]; intros c; simpl; [apply kept_refl|].
  pose proof (run_kept o c) as F1. destruct (run o c) as [c1 e1].
  specialize (IH c1). destruct (exec ops c1) as [c2 e2]. simpl in *.
  by eapply kept_trans.
Qed.

Lemma exec_app ops1 ops2 c :
  exec (ops1 ++ ops2) c =
  ((exec ops2 (exec ops1 c).1).1, (exec ops1 c).2 ++ (exec ops2 (exec ops1 c).1).2).
Proof.
  revert c. induction ops1 as [|o ops1 IH]; intros c; simpl.
  - by destruct (exec ops2 c).
  - destruct (run o c) as [c1 e1]. rewrite IH.
    destruct (exec ops1 c1) as [c2 e2]. simpl.
    by rewrite (assoc_L (++)).
Qed.

(** X13: Once [_closed] is set, no entry point of the connection clears it again
    or changes [state]: whatever is called afterwards, the connection stays
    closed in the state it had. *)
Theorem closed_is_final (ops : list op) (c : connection) :
  _closed c = true ->
  _closed (exec ops c).1 = true /\ state (exec ops c).1 = state c.
Proof.
  intros Hc. destruct (exec_kept ops c) as (_ & _ & H & _). by apply H.
Qed.

Lemma closed_is_final_witness :
  let c := (_onClose (mk_conn (Some (mk_selected [10] [upd "EXISTS" 11 1])))).1 in
  let ops := [OpEmitNotifications; OpOnEnd; OpClose; OpOnCommand {| final := true; value := "a NOOP" |}] in
  _closed (exec ops c).1 = true /\ state (exec ops c).1 = state c.
Proof.
  intros c ops. apply (closed_is_final ops c). vm_compute. reflexivity.
Defined.

(** X14: No entry point adds a connection to [server.connections]; and once
    [close()] has run, the connection is not in [server.connections] after
    any further calls. *)
Theorem never_registered_again (ops1 ops2 : list op) (c : connection) :
  connections (_server (exec ops1 c).1) ⊆ connections (_server c) /\
  self c ∉ connections (_server (exec (ops1 ++ OpClose :: ops2) c).1).
Proof.
  destruct (exec_kept ops1 c) as (S1 & C1 & _). split; [exact C1|].
  rewrite exec_app. cbn [fst]. simpl exec.
  set (c1 := (exec ops1 c).1) in *.
  pose proof (exec_kept ops2 (close c1).1) as (S2 & C2 & _).
  destruct (close c1) as [c2 e2] eqn:Hcl. simpl in *.
  destruct (exec ops2 c2) as [c3 e3]. simpl in *.
  assert (Hc2 : self c ∉ connections (_server c2)).
  { replace c2 with (close c1).1 by (by rewrite Hcl). unfold close.
    destruct (negb _ && _); simpl; rewrite <- S1; set_solver. }
  set_solver.
Qed.

(** X15: Once the writable side of the socket is closed, [send] hands nothing to
    the socket any more, whatever entry points run afterwards; in particular
    nothing is sent after [close()] on a socket that was not destroyed. *)
Theorem nothing_sent_after_end (ops : list op) (c : connection) :
  destroyed (_socket c) = false ->
  sent (exec ops (close c).1).2 = [].
Proof.
  intros Hd.
  destruct (exec_kept ops (close c).1) as (_ & _ & _ & H). apply H.
  unfold close. rewrite Hd. simpl. by destruct (writable (_socket c)) eqn:Hw.
Qed.

Lemma nothing_sent_after_end_witness :
  sent (exec [OpSend "* OK still there"; OpOnTimeout; OpInitCb "* OK ready"]
          (close (mk_conn None)).1).2 = [].
Proof.
  apply (nothing_sent_after_end _ (mk_conn None)). reflexivity.
Defined.

(** ** Assembling a command from its frames *)

Lemma _onCommand_append (f : frame) (c : connection) :
  _upgrading c = false -> final f = false ->
  _onCommand f c =
  (set_currentCommand true c,
   (if _currentCommand c then [] else [EvNewCommand]) ++ [EvAppend f]).
Proof.
  intros Hu Hf. unfold _onCommand. rewrite Hu, Hf. simpl.
  destruct c as [? ? ? ? ? ? ? ? ? ? cur ? ? ? ? ? ? ?]. simpl in *.
  by destruct cur.
Qed.

Lemma exec_appends (fs : list frame) : forall c,
  _upgrading c = false -> _currentCommand c = true ->
  Forall (fun f => final f = false) fs ->
  exec (map OpOnCommand fs) c = (c, map EvAppend fs).
Proof.
  induction fs as [|f fs IH]; intros c Hu Hc Hall; simpl; [done|].
  apply Forall_cons in Hall as [Hf Hall].
  rewrite (_onCommand_append f c Hu Hf), Hc. simpl.
  assert (E : set_currentCommand true c = c).
  { destruct c; simpl in *. by subst. }
  rewrite E, (IH c Hu Hc Hall). done.
Qed.

(** X16: Outside a TLS upgrade and with no command open, the frames of one command
    (any number of non-final frames followed by the final one) create exactly
    one command object: every non-final frame is appended to it in order, the
    final frame ends it, and afterwards no command is open, so the connection
    is as before. *)
Theorem command_assembled_once (fs : list frame) (f : frame) (c : connection) :
  _upgrading c = false -> _currentCommand c = false ->
  Forall (fun g => final g = false) fs -> final f = true ->
  exec (map OpOnCommand (fs ++ [f])) c =
  (c, EvNewCommand :: map EvAppend fs ++ [EvEnd f]).
Proof.
  intros Hu Hc Hall Hf. rewrite map_app, exec_app.
  assert (Hend : forall c0, _upgrading c0 = false ->
            exec (map OpOnCommand [f]) c0 =
            (set_currentCommand false c0,
             (if _currentCommand c0 then [] else [EvNewCommand]) ++ [EvEnd f])).
  { intros c0 Hu0. simpl. unfold _onCommand. rewrite Hu0, Hf. simpl.
    destruct (_currentCommand c0); simpl; by rewrite ?app_nil_r. }
  assert (E0 : set_currentCommand false c = c).
  { destruct c; simpl in *. by subst. }
  destruct fs as [|g fs].
  - change (exec (map OpOnCommand []) c) with (c, @nil event). cbn [fst snd].
    rewrite (Hend c Hu), Hc, E0. done.
  - apply Forall_cons in Hall as [Hg Hall].
    assert (E1 : exec (map OpOnCommand (g :: fs)) c =
                 (set_currentCommand true c, EvNewCommand :: map EvAppend (g :: fs))).
    { simpl. rewrite (_onCommand_append g c Hu Hg), Hc.
      rewrite (exec_appends fs (set_currentCommand true c)); done. }
    rewrite E1. cbn [fst snd]. rewrite (Hend (set_currentCommand true c) Hu).
    cbn [_currentCommand set_currentCommand].
    change (set_currentCommand false (set_currentCommand true c))
      with (set_currentCommand false c).
    rewrite E0. simpl. rewrite ?app_nil_r, <- ?(assoc_L (++)). done.
Qed.

Lemma command_assembled_once_witness :
  let f1 := {| final := false; value := "a1 LOGIN {4}" |} in
  let f2 := {| final := false; value := "user {4}" |} in
  let f3 := {| final := true; value := "pass" |} in
  exec (map OpOnCommand ([f1; f2] ++ [f3])) (mk_conn None) =
  (mk_conn None, EvNewCommand :: map EvAppend [f1; f2] ++ [EvEnd f3]).
Proof.
  intros f1 f2 f3.
  apply (command_assembled_once [f1; f2] f3 (mk_conn None)); try reflexivity.
  repeat constructor.
Defined.

(** ** Subscriptions *)

(** X17: Calling [updateNotificationListener] again without anything having
    changed finds the subscription in place: the second call only runs
    [done], registers and removes no listener, and leaves the connection as
    the first call left it. *)
Theorem updateNotificationListener_twice (c : connection) :
  updateNotificationListener (updateNotificationListener c).1 =
  ((updateNotificationListener c).1, [EvDone]).
Proof.
  unfold updateNotificationListener at 2 3.
  destruct (match listenerData_obj c with Some _ => _ | None => _ end) eqn:Hreg.
  { simpl. unfold updateNotificationListener. by rewrite Hreg. }
  assert (Hc1 : exists c1 e1,
            match listenerData_obj c with
            | Some (lid, _) => clear lid c | None => (c, []) end = (c1, e1) /\
            selected c1 = selected c).
  { destruct (listenerData_obj c) as [[lid L]|].
    - exists (clear lid c).1, (clear lid c).2. split; [by destruct (clear lid c)|].
      apply clear_selected.
    - by exists c, []. }
  destruct Hc1 as (c1 & e1 & -> & Hsel).
  destruct (selected c1) as [sel|] eqn:Hs1; simpl.
  - unfold updateNotificationListener, listenerData_obj. simpl.
    rewrite lookup_app_r by lia. rewrite Nat.sub_diag. simpl.
    rewrite Hs1, String.eqb_refl. done.
  - unfold updateNotificationListener, listenerData_obj. simpl.
    rewrite Hs1. done.
Qed.

Lemma listeners_wf_same c c' :
  listeners c' = listeners c -> _listenerData c' = _listenerData c ->
  listeners_wf c -> listeners_wf c'.
Proof. unfold listeners_wf. by intros -> ->. Qed.

Lemma clear_wf lid c : listeners_wf c -> listeners_wf (clear lid c).1.
Proof.
  intros [Ha Hb]. unfold clear.
  destruct (listeners c !! lid) as [L|] eqn:HL; [|done]. simpl.
  split; simpl.
  - intros lid' L' Hl Hc.
    destruct (decide (lid' = lid)) as [->|Hne].
    + rewrite list_lookup_insert_eq in Hl by (by eapply lookup_lt_Some).
      injection Hl as <-. done.
    + rewrite list_lookup_insert_ne in Hl by done.
      pose proof (Ha lid' L' Hl Hc) as Hld. rewrite Hld.
      destruct (cleared L); [done|].
      rewrite bool_decide_eq_false_2; [done|congruence].
  - intros lid' Hld.
    assert (Hold : _listenerData c = Some lid' /\ lid' ≠ lid).
    { destruct (cleared L) eqn:HcL.
      - split; [done|]. intros ->. destruct (Hb lid Hld) as (L' & HL' & Hc').
        congruence.
      - destruct (bool_decide (_listenerData c = Some lid)) eqn:Hbd; [done|].
        apply bool_decide_eq_false in Hbd. split; [done|congruence]. }
    destruct Hold as [Hold Hne]. destruct (Hb lid' Hold) as (L' & HL' & Hc').
    exists L'. by rewrite list_lookup_insert_ne.
Qed.

Lemma set_lock_wf lid b c : listeners_wf c -> listeners_wf (set_lock lid b c).
Proof.
  intros [Ha Hb]. unfold set_lock.
  destruct (listeners c !! lid) as [L|] eqn:HL; [|done]. split; simpl.
  - intros lid' L' Hl Hc.
    destruct (decide (lid' = lid)) as [->|Hne].
    + rewrite list_lookup_insert_eq in Hl by (by eapply lookup_lt_Some).
      injection Hl as <-. simpl in Hc. by apply (Ha lid L).
    + rewrite list_lookup_insert_ne in Hl by done. by apply (Ha lid' L').
  - intros lid' Hld. destruct (Hb lid' Hld) as (L' & HL' & Hc').
    destruct (decide (lid' = lid)) as [->|Hne].
    + eexists. rewrite list_lookup_insert_eq by (by eapply lookup_lt_Some).
      split; [done|]. simpl. congruence.
    + exists L'. by rewrite list_lookup_insert_ne.
Qed.

Lemma emitNotifications_listeners c :
  listeners (emitNotifications c).1 = listeners c /\
  _listenerData (emitNotifications c).1 = _listenerData c.
Proof.
  unfold emitNotifications. destruct (negb _); [done|].
  destruct (selected c) as [sel|]; [|done].
  destruct (notifications sel); [done|]. by destruct (flush _ _ sel).
Qed.

Lemma close_listeners c :
  listeners (close c).1 = listeners c /\ _listenerData (close c).1 = _listenerData c.
Proof. unfold close. by destruct (negb _ && _). Qed.

Lemma updateNotificationListener_wf c :
  listeners_wf c -> listeners_wf (updateNotificationListener c).1.
Proof.
  intros Hwf. unfold updateNotificationListener.
  destruct (match listenerData_obj c with Some _ => _ | None => _ end); [done|].
  assert (H1 : exists c1 e1,
            match listenerData_obj c with
            | Some (lid, _) => clear lid c | None => (c, []) end = (c1, e1) /\
            listeners_wf c1 /\ _listenerData c1 = None).
  { unfold listenerData_obj. destruct (_listenerData c) as [lid|] eqn:Hld.
    - destruct (proj2 Hwf lid Hld) as (L & HL & HcL). rewrite HL.
      exists (clear lid c).1, (clear lid c).2.
      split; [by destruct (clear lid c)|]. split; [by apply clear_wf|].
      unfold clear. rewrite HL, HcL. simpl.
      by rewrite bool_decide_eq_true_2.
    - by exists c, []. }
  destruct H1 as (c1 & e1 & -> & [Ha Hb] & Hnone).
  assert (Hall : forall lid L, listeners c1 !! lid = Some L -> cleared L = true).
  { intros lid L HL. destruct (cleared L) eqn:HcL; [done|].
    pose proof (Ha lid L HL HcL). congruence. }
  destruct (selected c1) as [sel|]; simpl.
  - split; simpl.
    + intros lid L HL HcL.
      destruct (decide (lid < length (listeners c1))%nat) as [Hlt|Hge].
      * rewrite lookup_app_l in HL by done. rewrite (Hall lid L HL) in HcL. done.
      * rewrite lookup_app_r in HL by lia.
        destruct (lid - length (listeners c1))%nat as [|k] eqn:Hk; [|done].
        f_equal. lia.
    + intros lid Hld. injection Hld as <-. eexists.
      rewrite lookup_app_r by lia. rewrite Nat.sub_diag. done.
  - split; simpl; [|done].
    intros lid L HL HcL. rewrite (Hall lid L HL) in HcL. done.
Qed.

Lemma _onClose_wf c : listeners_wf c -> listeners_wf (_onClose c).1.
Proof.
  intros Hwf. unfold _onClose. destruct (_closed c); [done|].
  match goal with |- context [match listenerData_obj ?c0 with _ => _ end] =>
    assert (Hwf1 : listeners_wf c0) by (by eapply listeners_wf_same; [..|exact Hwf]);
    assert (H2 : listeners_wf
              (match listenerData_obj c0 with
               | Some (lid, _) => clear lid c0 | None => (c0, []) end).1)
      by (destruct (listenerData_obj c0) as [[lid L]|]; [by apply clear_wf|done]);
    destruct (match listenerData_obj c0 with
              | Some (lid, _) => clear lid c0 | None => (c0, []) end) as [c2 e2]
  end.
  simpl in *. destruct (_closed c2); simpl; by eapply listeners_wf_same; [..|exact H2].
Qed.

Lemma run_wf o c : listeners_wf c -> listeners_wf (run o c).1.
Proof.
  intros Hwf. destruct o; simpl.
  - unfold init_cb. destruct (_ || _); [done|].
    pose proof (send_same greeting c). destruct (send greeting c); simpl in *.
    by subst.
  - by rewrite send_same.
  - destruct (close_listeners c). by eapply listeners_wf_same.
  - unfold _onEnd. destruct (_closed c); [done|].
    pose proof (_onClose_wf c Hwf). by destruct (_onClose c).
  - by apply _onClose_wf.
  - unfold _onError. destruct processed; [done|]. destruct (_ || _); [|done].
    destruct (close_listeners c). by eapply listeners_wf_same.
  - unfold _onTimeout. destruct (idling c); [done|].
    pose proof (send_same "* BYE Idle timeout, closing connection" c) as Hs.
    destruct (send _ c) as [c1 e1]; simpl in Hs; subst c1.
    destruct (threw e1); [done|].
    destruct (close_listeners c). destruct (close c). simpl in *.
    by eapply listeners_wf_same.
  - unfold _onCommand. destruct (_upgrading c); [done|].
    destruct (_currentCommand c), (negb (final f)); simpl;
      by eapply listeners_wf_same; [..|exact Hwf].
  - by apply updateNotificationListener_wf.
  - unfold callback. destruct (match msg with Some _ => _ | None => _ end).
    + pose proof (send_same "* BYE Selected mailbox was deleted, have to disconnect" c) as Hs.
      destruct (send _ c) as [c1 e1]; simpl in Hs; subst c1.
      destruct (threw e1); [done|].
      destruct (close_listeners c). destruct (close c). simpl in *.
      by eapply listeners_wf_same.
    + destruct (listeners c !! lid) as [L|]; [|done].
      destruct (negb _ && _); [done|]. destruct (cleared L); [done|].
      destruct (if String.eqb _ _ then _ else _);
        [by apply set_lock_wf | by apply clear_wf].
  - unfold getUpdates_cb. destruct (listeners c !! lid) as [L|]; [|done].
    destruct (cleared L); [done|].
    pose proof (set_lock_wf lid false c Hwf) as H1.
    destruct err; [done|].
    destruct (if String.eqb _ _ then _ else _) as [sel|]; [|by apply clear_wf].
    destruct updates as [[|u0 us]|]; try done.
    match goal with |- context [set_selected ?s ?c0] =>
      assert (H2 : listeners_wf (set_selected s c0))
        by (by eapply listeners_wf_same; [..|exact H1]) end.
    match goal with |- context [idling ?c0] => destruct (idling c0) end; [|done].
    match goal with |- listeners_wf (emitNotifications ?c0).1 =>
      destruct (emitNotifications_listeners c0) end.
    by eapply listeners_wf_same.
  - destruct (emitNotifications_listeners c). by eapply listeners_wf_same.
  - unfold formatResponse_conn. destruct (selected c); [|done].
    by eapply listeners_wf_same; [..|exact Hwf].
Qed.

(** X18: Along every run that starts without dangling listener records, at most
    one listener record is live at any time, and it is the one
    [_listenerData] points to: each record that was replaced or dropped had
    its [clear] called (the listener was removed from the notifier). *)
Theorem one_live_listener (ops : list op) (c : connection) :
  listeners_wf c -> listeners_wf (exec ops c).1.
Proof.
  revert c. induction ops as [|o ops IH]; intros c Hwf; simpl; [done|].
  pose proof (run_wf o c Hwf) as H1. destruct (run o c) as [c1 e1].
  specialize (IH c1 H1). by destruct (exec ops c1).
Qed.

Lemma one_live_listener_witness :
  listeners_wf
    (exec [OpUpdateNotificationListener; OpCallback 0 None; OpOnClose;
           OpUpdateNotificationListener]
       (mk_conn (Some (mk_selected [10] [])))).1.
Proof.
  apply one_live_listener. split.
  - intros lid L H. simpl in H. destruct lid; discriminate H.
  - intros lid H. discriminate H.
Defined.

(** ** The fetch lock *)

Lemma callback_locked lid L sel m c :
  listeners c !! lid = Some L -> cleared L = false -> lock L = true ->
  selected c = Some sel -> not_delete_of sel m ->
  callback lid m c = (c, []).
Proof.
  intros HL Hc Hl Hsel Hm. unfold callback. rewrite Hsel.
  assert (Hd : match m with
               | Some m0 => String.eqb (action m0) "DELETE" &&
                            String.eqb (m_mailbox m0) (mailbox sel)
               | None => false end = false) by (by destruct m).
  rewrite Hd, HL, Hc, Hl. done.
Qed.

(** X19: While a fetch is in flight the lock keeps further notifier calls from
    starting another one: of any burst of notifier calls on a live, unlocked
    listener of a selected session, only the first calls [getUpdates] (with
    the current [modifyIndex]); the others return without any effect. *)
Theorem one_fetch_in_flight lid L sel m0 msgs c :
  listeners c !! lid = Some L -> cleared L = false -> lock L = false ->
  state c = "Selected" -> selected c = Some sel ->
  Forall (not_delete_of sel) (m0 :: msgs) ->
  exec (map (OpCallback lid) (m0 :: msgs)) c =
  (set_lock lid true c,
   [EvGetUpdates lid (l_mailbox <$> (snd <$> listenerData_obj c)) (modifyIndex sel)]).
Proof.
  intros HL Hc Hl Hs Hsel Hall. apply Forall_cons in Hall as [Hm0 Hall].
  simpl. unfold callback at 1. rewrite Hsel.
  assert (Hd : match m0 with
               | Some m => String.eqb (action m) "DELETE" &&
                           String.eqb (m_mailbox m) (mailbox sel)
               | None => false end = false) by (by destruct m0).
  rewrite Hd, HL, Hc, Hl, Hs. simpl.
  set (c1 := set_lock lid true c).
  assert (HL1 : listeners c1 !! lid =
                Some {| l_mailbox := l_mailbox L; lock := true; cleared := cleared L |}).
  { subst c1. unfold set_lock. rewrite HL. simpl.
    apply list_lookup_insert_eq. by eapply lookup_lt_Some. }
  assert (Hsel1 : selected c1 = Some sel).
  { subst c1. by rewrite set_lock_selected. }
  assert (Hrest : exec (map (OpCallback lid) msgs) c1 = (c1, [])).
  { clear -HL1 Hsel1 Hall Hc. induction msgs as [|m msgs IH]; simpl; [done|].
    apply Forall_cons in Hall as [Hm Hall].
    rewrite (callback_locked lid _ sel m c1 HL1 Hc eq_refl Hsel1 Hm).
    by rewrite (IH Hall). }
  by rewrite Hrest.
Qed.

Lemma one_fetch_in_flight_witness :
  let c := (updateNotificationListener (mk_conn (Some (mk_selected [10] [])))).1 in
  exec (map (OpCallback 0) [None; None; Some {| action := "EXISTS"; m_mailbox := "INBOX" |}]) c
  = (set_lock 0 true c, [EvGetUpdates 0 (Some "INBOX") 0]).
Proof.
  intros c.
  refine (one_fetch_in_flight 0 {| l_mailbox := "INBOX"; lock := false; cleared := false |}
            (mk_selected [10] []) None _ c eq_refl eq_refl eq_refl eq_refl eq_refl _).
  repeat constructor.
Defined.

(** X20: When [getUpdates] succeeds for a live listener of a selected session that
    is not idling, the lock is released, nothing is written, and the updates
    are queued behind the pending ones in the order received, with
    [modifyIndex] raised to the [modseq] of the last update if that is
    larger; a missing or empty update list changes nothing but the lock. *)
Theorem getUpdates_queues_updates lid L sel updates c :
  listeners c !! lid = Some L -> cleared L = false ->
  state c = "Selected" -> selected c = Some sel -> idling c = false ->
  let r := getUpdates_cb lid None updates c in
  r.2 = [] /\
  lock <$> listeners r.1 !! lid = Some false /\
  selected r.1 =
    Some (match updates with
          | Some (u0 :: us) =>
              set_notifications (notifications sel ++ u0 :: us)
                (set_modifyIndex (Z.max (modifyIndex sel) (modseq (List.last us u0))) sel)
          | _ => sel
          end).
Proof.
  intros HL Hc Hs Hsel Hidle r. subst r.
  unfold getUpdates_cb. rewrite HL, Hc.
  assert (Hst : state (set_lock lid false c) = state c)
    by (unfold set_lock; by rewrite HL).
  assert (Hid : idling (set_lock lid false c) = idling c)
    by (unfold set_lock; by rewrite HL).
  assert (Hlk : lock <$> listeners (set_lock lid false c) !! lid = Some false).
  { unfold set_lock. rewrite HL. simpl.
    rewrite list_lookup_insert_eq; [done|]. by eapply lookup_lt_Some. }
  rewrite Hst, Hs, set_lock_selected, Hsel. simpl.
  destruct updates as [[|u0 us]|]; simpl;
    try (split; [done|]; split; [exact Hlk|]; by rewrite set_lock_selected).
  rewrite Hid, Hidle. simpl. split; [done|]. split; [exact Hlk|].
  assert (Hadv : advance (modseq (List.last us u0)) sel =
                 set_modifyIndex (Z.max (modifyIndex sel) (modseq (List.last us u0))) sel).
  { unfold advance.
    destruct (Z.gtb_spec (modseq (List.last us u0)) (modifyIndex sel)).
    - f_equal; lia.
    - destruct sel; unfold set_modifyIndex; simpl in *. f_equal; lia. }
  by rewrite Hadv.
Qed.

Lemma getUpdates_queues_updates_witness :
  let c0 := mk_conn (Some (mk_selected [10] [upd "FETCH" 10 3])) in
  let c := (exec [OpUpdateNotificationListener; OpCallback 0 None]
              (set_idling false c0)).1 in
  let r := getUpdates_cb 0 None (Some [upd "EXISTS" 11 7; upd "EXISTS" 12 5]) c in
  r.2 = [] /\
  (notifications <$> selected r.1) =
    Some [upd "FETCH" 10 3; upd "EXISTS" 11 7; upd "EXISTS" 12 5].
Proof.
  intros c0 c r.
  destruct (getUpdates_queues_updates 0
              {| l_mailbox := "INBOX"; lock := true; cleared := false |}
              (mk_selected [10] [upd "FETCH" 10 3])
              (Some [upd "EXISTS" 11 7; upd "EXISTS" 12 5]) c
              eq_refl eq_refl eq_refl eq_refl eq_refl) as (H1 & _ & H3).
  split; [exact H1|]. fold r in H3. rewrite H3. reflexivity.
Defined.

(** ** Deletion of the selected mailbox, timeouts and the end of the connection *)

(** X21: When the notifier reports that the selected mailbox was deleted and
    the socket is writable and not destroyed, the callback says BYE and
    closes, whatever the listener record, the lock or the session state are:
    exactly one payload is sent, the socket is ended once, no fetch is
    started, the connection is marked closing and taken out of
    [server.connections], and no later entry point sends anything.  The one
    exception is a connection with [compression] set whose [_deflate] is gone:
    there [send] throws, the callback stops at it, and the connection is left
    as it was, with nothing sent and the socket not ended. *)
Theorem deleted_mailbox_disconnects lid m sel c :
  selected c = Some sel ->
  action m = "DELETE" -> m_mailbox m = mailbox sel ->
  writable (_socket c) = true -> destroyed (_socket c) = false ->
  let r := callback lid (Some m) c in
  if send_throws c
  then r = (c, [EvThrow])
  else
    sent r.2 = ["* BYE Selected mailbox was deleted, have to disconnect"] /\
    socket_ends r.2 = 1%nat /\
    List.filter is_getUpdates r.2 = [] /\
    listeners r.1 = listeners c /\
    _closing r.1 = true /\
    (self c ∉ connections (_server r.1)) /\
    forall ops, sent (exec ops r.1).2 = [].
Proof.
  intros Hsel Ha Hm Hw Hd r. subst r.
  unfold callback, send_throws. rewrite Hsel, Ha, Hm, !String.eqb_refl. simpl.
  unfold send. rewrite Hw. simpl.
  destruct (compression c) eqn:Hcp, (_deflate c) eqn:Hdf; simpl; try done;
    unfold close; rewrite Hd; simpl; rewrite Hw; simpl;
    (split; [done|]); (split; [done|]); (split; [done|]); (split; [done|]);
    (split; [done|]); (split; [set_solver|]);
    intros ops;
    match goal with |- sent (exec ops ?c1).2 = [] =>
      destruct (exec_kept ops c1) as (_ & _ & _ & H) end;
    by apply H.
Qed.

Lemma deleted_mailbox_disconnects_witness :
  let c := mk_conn (Some (mk_selected [10] [])) in
  let r := callback 0 (Some {| action := "DELETE"; m_mailbox := "INBOX" |}) c in
  sent r.2 = ["* BYE Selected mailbox was deleted, have to disconnect"] /\
  socket_ends r.2 = 1%nat.
Proof.
  intros c r.
  pose proof (deleted_mailbox_disconnects 0 {| action := "DELETE"; m_mailbox := "INBOX" |}
                (mk_selected [10] []) c eq_refl eq_refl eq_refl eq_refl eq_refl) as H.
  simpl in H. destruct H as (H1 & H2 & _).
  split; [exact H1|exact H2].
Defined.

(** X22: A socket timeout is only logged while the client is idling.
    Otherwise, unless [send] throws, the BYE line is sent (if the socket is
    still writable), then the socket is ended (if it is writable and not
    destroyed), and the connection is marked closing and removed from
    [server.connections]; the selected mailbox and its queue are not touched.
    When [send] throws ([compression] set, [_deflate] gone, socket writable),
    the method stops after the log entry and the connection is left as it
    was. *)
Theorem timeout_ignored_while_idling (c : connection) :
  let log := EvLog "info" "connection" "[%s] Connection TIMEOUT" in
  let r := _onTimeout c in
  (idling c = true -> r = (c, [log])) /\
  (idling c = false -> send_throws c = true -> r = (c, [log; EvThrow])) /\
  (idling c = false -> send_throws c = false ->
   r.2 = log :: (send "* BYE Idle timeout, closing connection" c).2 ++ (close c).2 /\
   sent r.2 = (if writable (_socket c)
               then ["* BYE Idle timeout, closing connection"] else []) /\
   socket_ends r.2 = (if negb (destroyed (_socket c)) && writable (_socket c)
                      then 1%nat else 0%nat) /\
   _closing r.1 = true /\ (self c ∉ connections (_server r.1)) /\
   selected r.1 = selected c).
Proof.
  intros log r. subst r log. unfold _onTimeout, send_throws, send, close.
  destruct (idling c).
  { split; [done|]. split; intros H; discriminate H. }
  split; [intros H; discriminate H|].
  destruct (writable (_socket c)) eqn:Hw, (destroyed (_socket c)) eqn:Hd,
    (compression c) eqn:Hcp, (_deflate c) eqn:Hdf; simpl; rewrite ?Hw, ?Hd; simpl;
    (split; [try done; intros _ H; discriminate H|]); intros _ H;
    try discriminate H;
    (split; [done|]); (split; [done|]); (split; [done|]); (split; [done|]);
    (split; [set_solver|done]).
Qed.



(** ** Bookkeeping of the length of uidList *)

Lemma expunge_count_app e1 e2 :
  expunge_count (e1 ++ e2) = (expunge_count e1 + expunge_count e2)%nat.
Proof.
  unfold expunge_count. by rewrite responses_app, List.filter_app, length_app.
Qed.

Lemma walk_body_length sid skip st x :
  (length (uidList (w_sel (walk_body sid skip st x).1)) +
   expunge_count (walk_body sid skip st x).2 =
   length (uidList (w_sel st)) + (if is_appended sid skip x then 1 else 0))%nat.
Proof.
  unfold walk_body.
  destruct (bool_decide (uid x ∈ skip)) eqn:Hbd.
  { unfold is_appended. rewrite Hbd, andb_false_r. unfold expunge_count. simpl. lia. }
  destruct (ignored sid x) eqn:Hig.
  { unfold is_appended. rewrite Hig, andb_false_r. cbn [fst snd w_sel andb].
    rewrite advance_uidList. unfold expunge_count. simpl. lia. }
  destruct (String.eqb (command x) "EXISTS") eqn:He.
  { unfold is_appended. rewrite Hbd, Hig, He. cbn [andb negb].
    rewrite formatResponse_EXISTS. cbn [fst snd w_sel uidList set_uidList].
    rewrite length_app, advance_uidList. unfold expunge_count. simpl. lia. }
  assert (Hno : is_appended sid skip x = false).
  { unfold is_appended. by rewrite He. }
  rewrite Hno.
  destruct (String.eqb (command x) "EXPUNGE").
  { destruct (Z.geb_spec (indexOf (uidList (advance (modseq x) (w_sel st))) (uid x)) 0)
      as [Hge|Hlt].
    2:{ cbn [fst snd w_sel]. rewrite advance_uidList. unfold expunge_count. simpl. lia. }
    rewrite formatResponse_EXPUNGE. rewrite advance_uidList in *.
    destruct (Z.ltb_spec (indexOf (uidList (w_sel st)) (uid x)) 0); [lia|].
    cbn [fst snd w_sel uidList set_uidList].
    assert (Hin : uid x ∈ uidList (w_sel st)).
    { destruct (decide (uid x ∈ uidList (w_sel st))) as [|Hn]; [done|].
      apply indexOf_absent in Hn. lia. }
    destruct (indexOf_present _ _ Hin) as [_ Hl].
    unfold splice1. rewrite length_delete.
    2:{ replace (indexOf (uidList (w_sel st)) (uid x) + 1 - 1)
          with (indexOf (uidList (w_sel st)) (uid x)) by lia. eauto. }
    pose proof (indexOf_bound _ _ Hin). unfold expunge_count. simpl. lia. }
  destruct (String.eqb (command x) "FETCH").
  2:{ cbn [fst snd w_sel]. rewrite advance_uidList. unfold expunge_count. simpl. lia. }
  rewrite formatResponse_FETCH. destruct (_ <? 0); cbn [fst snd w_sel];
    rewrite advance_uidList; unfold expunge_count; simpl; lia.
Qed.

Lemma walk_length sid skip q : forall st,
  (length (uidList (w_sel (walk sid skip st q).1)) + expunge_count (walk sid skip st q).2 =
   length (uidList (w_sel st)) + length (List.filter (is_appended sid skip) q))%nat.
Proof.
  induction q as [|x q IH]; intros st; simpl.
  - unfold expunge_count. simpl. lia.
  - pose proof (walk_body_length sid skip st x) as Hb.
    destruct (walk_body sid skip st x) as [st1 e1]. specialize (IH st1).
    destruct (walk sid skip st1 q) as [st2 e2]. simpl in *.
    rewrite expunge_count_app. destruct (is_appended sid skip x); simpl; lia.
Qed.

(** X6: The length of [uidList] follows what the flush tells the client: after a
    flush it is the length before, plus one for every surviving EXISTS record
    that is neither skipped nor echo-suppressed, minus one for every EXPUNGE
    response written. *)
Theorem flush_length_bookkeeping (sid : string) (notify : bool) (sel : selected_t) :
  let r := flush sid notify sel in
  (length (uidList r.1) + expunge_count r.2 =
   length (uidList sel) +
   length (List.filter (is_appended sid (skip_of (notifications sel)))
             (survivors (notifications sel))))%nat.
Proof.
  intros r. subst r. rewrite flush_unfold. cbv zeta.
  match goal with |- context [walk ?a ?b ?st ?q] =>
    pose proof (walk_length a b q st) as Hw;
    destruct (walk_exists_inv a b (uidList sel) q st) as [Hinv _];
    [right; right; done|];
    destruct (walk a b st q) as [st' ev] end.
  cbn [fst snd uidList set_notifications w_sel] in *.
  change (EvLog ?a ?b ?c :: ?l) with ([EvLog a b c] ++ l).
  rewrite !expunge_count_app.
  assert (Ht : expunge_count (exists_tail st') = 0%nat).
  { unfold exists_tail.
    destruct (exists_inv_response _ _ Hinv) as [->|[n ->]];
      destruct (changed st'); reflexivity. }
  rewrite Ht. destruct notify; unfold expunge_count at 1 3; simpl; lia.
Qed.

(** ** The greeting *)

Lemma run_closing o c :
  _closing c || _closed c = true ->
  _closing (run o c).1 || _closed (run o c).1 = true.
Proof.
  intros H.
  assert (Hclose : forall c0, _closing (close c0).1 || _closed (close c0).1 = true).
  { intros c0. unfold close. by destruct (negb _ && _). }
  assert (Hclear : forall lid c0,
            _closing (clear lid c0).1 = _closing c0 /\
            _closed (clear lid c0).1 = _closed c0).
  { intros lid c0. unfold clear. by destruct (_ !! lid). }
  assert (Hlock : forall lid b c0,
            _closing (set_lock lid b c0) = _closing c0 /\
            _closed (set_lock lid b c0) = _closed c0).
  { intros lid b c0. unfold set_lock. by destruct (_ !! lid). }
  assert (Hemit : forall c0,
            _closing (emitNotifications c0).1 = _closing c0 /\
            _closed (emitNotifications c0).1 = _closed c0).
  { intros c0. unfold emitNotifications. destruct (negb _); [done|].
    destruct (selected c0) as [sel|]; [|done].
    destruct (notifications sel); [done|]. by destruct (flush _ _ sel). }
  assert (HonClose : forall c0, _closing c0 || _closed c0 = true ->
            _closing (_onClose c0).1 || _closed (_onClose c0).1 = true).
  { intros c0 H0. unfold _onClose.
    destruct (_closed c0) eqn:Hc; [simpl; rewrite Hc; apply orb_true_r|].
    match goal with |- context [match ?o with Some _ => _ | None => _ end] =>
      destruct o as [[lid L]|] end.
    - match goal with |- context [clear lid ?c1] =>
        destruct (Hclear lid c1) as [_ H2]; destruct (clear lid c1) as [c2 e2] end.
      simpl in *. rewrite H2. simpl. by rewrite ?orb_true_r.
    - simpl. by rewrite ?orb_true_r. }
  destruct o; simpl.
  - unfold init_cb. rewrite H. done.
  - by rewrite send_same.
  - apply Hclose.
  - pose proof (HonClose c H) as H1. unfold _onEnd.
    destruct (_closed c) eqn:Hc; [simpl; by rewrite Hc, orb_true_r|].
    by destruct (_onClose c).
  - by apply HonClose.
  - unfold _onError. destruct processed; [done|].
    destruct (String.eqb code "ECONNRESET" || String.eqb code "EPIPE"); [|done].
    apply Hclose.
  - unfold _onTimeout. destruct (idling c); [done|].
    pose proof (send_same "* BYE Idle timeout, closing connection" c) as Hs.
    destruct (send _ c) as [c1 e1]; simpl in Hs; subst c1.
    destruct (threw e1); [done|].
    specialize (Hclose c). by destruct (close c).
  - unfold _onCommand. destruct (_upgrading c); [done|].
    by destruct (_currentCommand c), (negb (final f)).
  - unfold updateNotificationListener.
    destruct (match listenerData_obj c with Some _ => _ | None => _ end); [done|].
    destruct (listenerData_obj c) as [[lid L]|].
    + destruct (Hclear lid c) as [H1 H2]. destruct (clear lid c) as [c1 e1].
      simpl in *. destruct (selected c1); simpl; by rewrite H1, H2.
    + by destruct (selected c).
  - unfold callback. destruct (match msg with Some _ => _ | None => _ end).
    + pose proof (send_same "* BYE Selected mailbox was deleted, have to disconnect" c) as Hs.
      destruct (send _ c) as [c1 e1]; simpl in Hs; subst c1.
      destruct (threw e1); [done|].
      specialize (Hclose c). by destruct (close c).
    + destruct (listeners c !! lid) as [L|]; [|done].
      destruct (negb _ && _); [done|]. destruct (cleared L); [done|].
      destruct (if String.eqb _ _ then _ else _).
      * destruct (Hlock lid true c) as [E1 E2]. simpl. by rewrite E1, E2.
      * destruct (Hclear lid c) as [E1 E2]. by rewrite E1, E2.
  - unfold getUpdates_cb. destruct (listeners c !! lid) as [L|]; [|done].
    destruct (cleared L); [done|].
    destruct (Hlock lid false c) as [H1 H2].
    destruct err; [simpl; by rewrite H1, H2|].
    destruct (if String.eqb _ _ then _ else _) as [sel|].
    2:{ destruct (Hclear lid (set_lock lid false c)) as [E1 E2].
        by rewrite E1, E2, H1, H2. }
    destruct updates as [[|u0 us]|]; try (simpl; by rewrite H1, H2).
    match goal with |- context [idling ?c0] => destruct (idling c0) end;
      [|simpl; by rewrite H1, H2].
    match goal with |- context [emitNotifications ?c0] =>
      destruct (Hemit c0) as [E1 E2] end.
    rewrite E1, E2. simpl. by rewrite H1, H2.
  - destruct (Hemit c) as [E1 E2]. by rewrite E1, E2.
  - unfold formatResponse_conn. by destruct (selected c).
Qed.

(** X24: After [close()] the greeting is never sent: whatever entry points run in
    between, the reverse-DNS callback of [init] finds the connection closing
    or closed and returns without any effect. *)
Theorem no_greeting_after_close (ops : list op) (greeting : string) (c : connection) :
  let c' := (exec ops (close c).1).1 in
  init_cb greeting c' = (c', []).
Proof.
  intros c'. subst c'.
  assert (H : forall ops c0, _closing c0 || _closed c0 = true ->
            _closing (exec ops c0).1 || _closed (exec ops c0).1 = true).
  { clear. induction ops as [|o ops IH]; intros c0 H0; simpl; [done|].
    pose proof (run_closing o c0 H0) as H1. destruct (run o c0) as [c1 e1].
    specialize (IH c1 H1). by destruct (exec ops c1). }
  unfold init_cb. rewrite H; [done|].
  unfold close. by destruct (negb _ && _).
Qed.

Lemma emitNotifications_twice_witness :
  let c := mk_conn (Some (mk_selected [10] [upd "EXISTS" 11 1; upd "FETCH" 10 2])) in
  emitNotifications (emitNotifications c).1 = ((emitNotifications c).1, []) /\
  notifications <$> selected (emitNotifications c).1 = Some [].
Proof.
  intros c. destruct (emitNotifications_twice c) as [H1 H2].
  split; [exact H1|]. exact (H2 eq_refl).
Defined.

Lemma timeout_ignored_while_idling_witness :
  _onTimeout (mk_conn None) =
    (mk_conn None, [EvLog "info" "connection" "[%s] Connection TIMEOUT"]) /\
  sent (_onTimeout (set_idling false (mk_conn None))).2 =
    ["* BYE Idle timeout, closing connection"] /\
  (let c := (_onClose (set_idling false
               {| self := 1; id := "S"; compression := true; _deflate := true;
                  _inflate := true; _dataStream := false;
                  _server := {| connections := {[1%nat]}; has_onNotifications := false |};
                  _socket := {| destroyed := false; writable := true |};
                  _parser := true; _upgrading := false; _currentCommand := false;
                  state := "Authenticated"; listeners := []; _listenerData := None;
                  selected := None; idling := false; _closing := false;
                  _closed := false |})).1 in
   _onTimeout c =
     (c, [EvLog "info" "connection" "[%s] Connection TIMEOUT"; EvThrow])).
Proof.
  split; [|split].
  - exact (proj1 (timeout_ignored_while_idling (mk_conn None)) eq_refl).
  - destruct (proj2 (proj2 (timeout_ignored_while_idling (set_idling false (mk_conn None))))
                eq_refl eq_refl) as (_ & H & _).
    exact H.
  - intros c.
    exact (proj1 (proj2 (timeout_ignored_while_idling c)) eq_refl eq_refl).
Defined.

Example fetch_numbered_after_expunge :
  written (flush "S" false
             (mk_selected [10; 11] [upd "EXPUNGE" 10 1; upd "FETCH" 11 2])).2 =
  [Some (untagged "1" "EXPUNGE");
   Some {| tag := "*"; rcommand := "1";
           attributes := [Node "atom" "FETCH"; Arr []] |};
   Some (untagged "1" "EXISTS")].
Proof. vm_compute. reflexivity. Qed.

(** ** FETCH coalescing and echo suppression, together *)

Lemma walk_app sid skip q1 q2 st :
  walk sid skip st (q1 ++ q2) =
  ((walk sid skip (walk sid skip st q1).1 q2).1,
   (walk sid skip st q1).2 ++ (walk sid skip (walk sid skip st q1).1 q2).2).
Proof.
  revert st. induction q1 as [|x q1 IH]; intros st; simpl.
  - by destruct (walk sid skip st q2).
  - destruct (walk_body sid skip st x) as [st1 e1]. rewrite IH.
    destruct (walk sid skip st1 q1) as [st2 e2]. simpl.
    by rewrite (assoc_L (++)).
Qed.

(** C4: in every flush, (1) at most one FETCH record per UID survives the
    second loop, (2) a surviving FETCH record is the last FETCH of the queue
    for its UID and the queue holds no EXISTS or EXPUNGE for that UID, so (3)
    a FETCH record for a UID that has an EXISTS or EXPUNGE record in the queue
    does not survive; (4) the FETCH responses written correspond, in order, to
    distinct surviving FETCH records that are not echo-suppressed, each
    numbered with the position of its UID in [uidList] at that moment; (5) a
    surviving record whose [ignore] is the session id contributes nothing to
    what is written and leaves [uidList], the deferred EXISTS and [changed]
    as they were, wherever it stands among the survivors; and (6) with
    [uidList = [10; 11]] and the queue FETCH(10), FETCH(10, ignore=S),
    FETCH(11), the only object written is the untagged FETCH numbered 2. *)
Theorem fetch_coalescing_and_echo :
  (forall q, NoDup (uid <$> List.filter is_fetch (survivors q))) /\
  (forall q x, x ∈ survivors q -> command x = "FETCH" ->
     (forall y, y ∈ q -> uid y = uid x ->
                command y ≠ "EXISTS" /\ command y ≠ "EXPUNGE") /\
     exists pre post, q = pre ++ x :: post /\
       forall y, y ∈ post -> command y = "FETCH" -> uid y ≠ uid x) /\
  (forall q x y, command x = "FETCH" -> y ∈ q -> uid y = uid x ->
     command y = "EXISTS" \/ command y = "EXPUNGE" -> x ∉ survivors q) /\
  (forall sid notify sel,
     exists xs,
       xs `sublist_of` List.filter (fun x => is_fetch x && negb (ignored sid x))
                         (survivors (notifications sel)) /\
       NoDup (uid <$> xs) /\
       Forall2 (fun x r => exists pre post,
                  survivors (notifications sel) = pre ++ x :: post /\
                  uid x ∈ uidList_after sid sel pre /\
                  r = fetch_response_for (uidList_after sid sel pre)
                        (condstoreEnabled sel) x)
         xs (fetch_responses (flush sid notify sel).2)) /\
  (forall sid notify sel pre x post,
     survivors (notifications sel) = pre ++ x :: post ->
     ignore x = Some sid ->
     let skip := skip_of (notifications sel) in
     let st0 := {| w_sel := set_notifications (survivors (notifications sel)) sel;
                   changed := false; existsResponse := None |} in
     let r1 := walk sid skip st0 pre in
     let b := walk_body sid skip r1.1 x in
     let r2 := walk sid skip b.1 post in
     written (flush sid notify sel).2 =
       written r1.2 ++ written r2.2 ++ written (exists_tail r2.1) /\
     uidList (w_sel b.1) = uidList (w_sel r1.1) /\
     changed b.1 = changed r1.1 /\ existsResponse b.1 = existsResponse r1.1) /\
  (let x1 := {| command := "FETCH"; uid := 10; modseq := 1;
                flags := Some ["\Seen"]; ignore := None |} in
   let x2 := {| command := "FETCH"; uid := 10; modseq := 2;
                flags := Some ["\Seen"; "\Flagged"]; ignore := Some "S" |} in
   let x3 := {| command := "FETCH"; uid := 11; modseq := 3;
                flags := Some ["\Answered"]; ignore := None |} in
   let r := emitNotifications (mk_conn (Some (mk_selected [10; 11] [x1; x2; x3]))) in
   written r.2 =
     [Some {| tag := "*"; rcommand := "2";
              attributes := [Node "atom" "FETCH";
                             Arr [Node "ATOM" "FLAGS"; Arr [Node "ATOM" "\Answered"]]] |}] /\
   uidList <$> selected r.1 = Some [10; 11]).
Proof.
  split; [intros q; apply filter_fetches_NoDup|].
  assert (Hlast : forall q x, x ∈ survivors q -> command x = "FETCH" ->
     (forall y, y ∈ q -> uid y = uid x ->
                command y ≠ "EXISTS" /\ command y ≠ "EXPUNGE") /\
     exists pre post, q = pre ++ x :: post /\
       forall y, y ∈ post -> command y = "FETCH" -> uid y ≠ uid x).
  { intros q x Hx Hc.
    destruct (filter_fetches_last _ _ _ _ Hx Hc) as (Ha & Hr & Hl).
    split; [|exact Hl]. intros y Hy Hu. split; intros Hcy.
    - apply Ha. apply elem_of_added. by exists y.
    - apply Hr. apply elem_of_removed. by exists y. }
  split; [exact Hlast|]. split.
  { intros q x y Hc Hy Hu Hcy Hx.
    destruct (Hlast q x Hx Hc) as [Hno _]. destruct (Hno y Hy Hu) as [H1 H2].
    by destruct Hcy. }
  split.
  { intros sid notify sel. rewrite flush_unfold. cbv zeta. unfold uidList_after.
    match goal with |- context [walk ?a ?b ?st (survivors ?q)] =>
      destruct (walk_fetch_responses a b (survivors q) st) as (xs & Hsub & Hall);
      destruct (walk_exists_inv a b (uidList sel) (survivors q) st) as [Hinv _];
      [right; right; done|] end.
    exists xs. split; [done|]. split.
    - eapply sublist_NoDup;
        [apply (proj1 (filter_fetches_NoDup (collect (notifications sel)).1
                         (collect (notifications sel)).2 (notifications sel)))|].
      apply fmap_sublist. etrans; [exact Hsub|].
      apply filter_not_ignored_sublist.
    - cbn [snd]. change (EvLog ?a ?b ?c :: ?l) with ([EvLog a b c] ++ l).
      rewrite !fetch_responses_app, (exists_tail_no_fetch _ _ Hinv).
      destruct notify; simpl; rewrite !app_nil_r; exact Hall. }
  split.
  { intros sid notify sel pre x post Hq Hig skip st0 r1 b r2.
    assert (Hig' : ignored sid x = true).
    { unfold ignored. rewrite Hig. apply String.eqb_refl. }
    subst b r2.
    destruct (walk_body_ignored sid skip r1.1 x Hig') as (B1 & B2 & B3 & B4).
    split; [|done]. clear B2 B3 B4.
    rewrite flush_unfold. cbv zeta. cbn [snd]. fold skip st0.
    rewrite Hq, walk_app. cbn [fst snd]. fold r1.
    change (walk sid skip r1.1 (x :: post))
      with (let '(st1, e1) := walk_body sid skip r1.1 x in
            let '(st2, e2) := walk sid skip st1 post in (st2, e1 ++ e2)).
    revert B1. destruct (walk_body sid skip r1.1 x) as [stb eb]. intros B1.
    simpl in B1 |- *.
    destruct (walk sid skip stb post) as [st2 e2]. simpl.
    change (EvLog ?a ?b ?c :: ?l) with ([EvLog a b c] ++ l).
    rewrite !written_app, B1. simpl. destruct notify; simpl.
    all: by rewrite app_nil_r, <- (assoc_L (++)). }
  vm_compute. split; reflexivity.
Qed.

Lemma fetch_coalescing_and_echo_witness :
  let x1 := upd "FETCH" 10 1 in
  let x2 := upd "FETCH" 10 2 in
  let x3 := upd "EXPUNGE" 11 3 in
  (exists pre post, [x1; x2; x3] = pre ++ x2 :: post /\
     forall y, y ∈ post -> command y = "FETCH" -> uid y ≠ uid x2) /\
  upd "FETCH" 11 4 ∉ survivors [x1; upd "FETCH" 11 4; x3].
Proof.
  intros x1 x2 x3.
  destruct fetch_coalescing_and_echo as (_ & H2 & H3 & _).
  split.
  - assert (Hx : x2 ∈ survivors [x1; x2; x3]) by (vm_compute; left).
    exact (proj2 (H2 [x1; x2; x3] x2 Hx eq_refl)).
  - apply (H3 [x1; upd "FETCH" 11 4; x3] (upd "FETCH" 11 4) x3 eq_refl).
    + right; right; left.
    + reflexivity.
    + right; reflexivity.
Defined.
